(** * pydantic: validator registry and model instances

    A shallow embedding of [pydantic/_internal/valdation_functions.py]
    (the [ValidationFunctions] registry) and of the instance part of
    [pydantic/main.py] ([BaseModel.construct], [__setattr__], [dict], [_iter],
    [_calculate_keys], [_get_value], [copy]), with the properties of the
    specification stated and settled against them. *)

From Stdlib Require Import ZArith.
From stdpp Require Import gmap strings list fin_maps.

Set Warnings "-clear-no-such-hyp".

(** ** Exceptions

    Python exceptions are values of [Exception]; a call either returns
    ([Ok]) or raises ([Raise]). *)

Inductive Exception :=
| NameError (name : string)
| ValueError (msg : string)
| TypeError (msg : string)
| ValidationError (loc : string) (msg : string)
| ConfigError (msg : string).

Inductive Result (A : Type) :=
| Ok (a : A)
| Raise (e : Exception).
Arguments Ok {A} a.
Arguments Raise {A} e.

#[global] Instance result_ret : MRet Result := λ A a, Ok a.
#[global] Instance result_bind : MBind Result := λ A B k m,
  match m with
  | Ok a => k a
  | Raise e => Raise e
  end.

(** * The validator registry ([valdation_functions.py]) *)

Module Registry.

(** A decorated function: what the registry reads of it is its [__name__];
    [fn_id] stands for the identity of the function object. *)
Record Function := { __name__ : string; fn_id : nat }.

Inductive Mode := before | after | wrap | plain.

Record RootValidator := { function : Function; mode : Mode }.

(** [FieldValidator] extends [RootValidator]; [sub_path] is a tuple of
    strings and integers, or [None]. *)
Record FieldValidator := {
  base :> RootValidator;
  check_fields : bool;
  sub_path : option (list (string + Z))
}.

(** *** The store of list objects

    The values of the [_field_validators] dict are Python lists, which
    [extract_validator] and [get_field_validators] extend in place and which
    [get_field_validators] hands out to its caller. They are therefore kept in
    a store and named by reference: storing a list in the dict or returning
    it shares the object. *)

Abbreviation loc := nat (only parsing).
Abbreviation Heap := (list (list FieldValidator)) (only parsing).

(** A new list object. *)
Definition alloc (l : list FieldValidator) (h : Heap) : loc * Heap :=
  (length h, h ++ [l]).

Definition deref (h : Heap) (r : loc) : list FieldValidator :=
  default [] (h !! r).

(** [r += l] and [r.append(v)]: the object named [r] grows in place. *)
Definition extend (r : loc) (l : list FieldValidator) (h : Heap) : Heap :=
  <[r := deref h r ++ l]> h.

(** Truth value of [d.get(k)]: [None] and the empty list are false. *)
Definition truthy (h : Heap) (o : option loc) : bool :=
  match o with
  | Some r => match deref h r with [] => false | _ => true end
  | None => false
  end.

(** [__slots__ = '_field_validators', '_all_fields_validators',
    'root_validators', '_used_validators'].  The dict maps a field name to
    the reference of its list; no method depends on the order of its keys.
    The two plain list attributes are only ever rebound to new lists by the
    reachable code, so they are held by value. *)
Record ValidationFunctions := {
  _field_validators : gmap string loc;
  _all_fields_validators : list FieldValidator;
  root_validators : list RootValidator;
  _used_validators : gset string
}.

Definition __init__ : ValidationFunctions :=
  {| _field_validators := ∅; _all_fields_validators := [];
     root_validators := []; _used_validators := ∅ |}.

Definition set_field (k : string) (r : loc) (self : ValidationFunctions) :=
  {| _field_validators := <[k := r]> (_field_validators self);
     _all_fields_validators := _all_fields_validators self;
     root_validators := root_validators self;
     _used_validators := _used_validators self |}.

(** The state a method runs in: the store and the registry [self]. *)
Definition St := (Heap * ValidationFunctions)%type.

(** One round of the loop of [inherit] over [parent._field_validators.items()]
    (lines 44-48).  The assignment of line 48 is not under an [else]: it runs
    in every round, after the one of line 47. *)
Definition inherit_item (k : string) (v : loc) (st : St) : St :=
  let '(h, self) := st in
  let existing := _field_validators self !! k in
  let '(h, self) :=
    if truthy h existing then
      let '(r, h) := alloc (from_option (deref h) [] existing ++ deref h v) h in
      (h, set_field k r self)
    else (h, self) in
  let '(r, h) := alloc (deref h v) h in
  (h, set_field k r self).

Definition inherit (parent : ValidationFunctions) (st : St) : St :=
  let '(h, self) := map_fold inherit_item st (_field_validators parent) in
  (h, {| _field_validators := _field_validators self;
         _all_fields_validators :=
           _all_fields_validators parent ++ _all_fields_validators self;
         root_validators := root_validators parent ++ root_validators self;
         _used_validators := _used_validators self |}).

(** The object scanned by [extract_validator]: [getattr(value, TAG, None)]
    for the two tags. *)
Record Tagged := {
  __field_validator__ : option (list string * FieldValidator);
  __root_validator__ : option RootValidator
}.

Definition is_set {A} (o : option A) : bool :=
  match o with Some _ => true | None => false end.

(** One round of the loop over [fields] (lines 56-61). *)
Definition register_field (validator : FieldValidator) (st : St)
    (field_name : string) : St :=
  let '(h, self) := st in
  let this_field_validators := _field_validators self !! field_name in
  if truthy h this_field_validators then
    match this_field_validators with
    | Some r => (extend r [validator] h, self)
    | None => (h, self)
    end
  else
    let '(r, h) := alloc [validator] h in
    (h, set_field field_name r self).

(** [self.root_validators.append(r_validator)] (line 66). *)
Definition append_root (r_validator : option RootValidator)
    (self : ValidationFunctions) : ValidationFunctions :=
  {| _field_validators := _field_validators self;
     _all_fields_validators := _all_fields_validators self;
     root_validators :=
       root_validators self ++ from_option (λ r, [r]) [] r_validator;
     _used_validators := _used_validators self |}.

(** Lines 52-69.  The second test (line 65) is again on [f_validator]. *)
Definition extract_validator (value : Tagged) (st : St) : bool * St :=
  let f_validator := __field_validator__ value in
  match f_validator with
  | Some (fields, validator) =>
      (true, foldl (register_field validator) st fields)
  | None =>
      let r_validator := __root_validator__ value in
      if is_set f_validator then
        (true, (st.1, append_root r_validator st.2))
      else (false, st)
  end.

(** Lines 71-78.  [validators] is the stored list object when [name] is a
    key, and a new empty list otherwise (which is not stored); [+=] extends
    that object in place, and it is the object that is returned. *)
Definition get_field_validators (name : string) (st : St) : loc * St :=
  let '(h, self) := st in
  let self :=
    {| _field_validators := _field_validators self;
       _all_fields_validators := _all_fields_validators self;
       root_validators := root_validators self;
       _used_validators := {[name]} ∪ _used_validators self |} in
  let '(validators, h) :=
    match _field_validators self !! name with
    | Some r => (r, h)
    | None => alloc [] h
    end in
  let h := extend validators (_all_fields_validators self) h in
  (validators, (h, self)).

(** Lines 81-86: the names collected over the keys that were never used. *)
Definition unused_validators (st : St) : gset string :=
  let '(h, self) := st in
  list_to_set
    (filter (λ kv : string * loc, kv.1 ∉ _used_validators self)
            (map_to_list (_field_validators self))
     ≫= λ kv : string * loc,
          (λ v : FieldValidator, __name__ (function v))
          <$> filter (λ v : FieldValidator, check_fields v = true)
                     (deref h kv.2)).

Definition unused_message (names : gset string) : string :=
  "Validators defined with incorrect fields: "
  +:+ String.concat ", " (elements names)
  +:+ " (use check_fields=False if you're inheriting from the model and intended this)".

Definition check_for_unused (st : St) : Result unit :=
  let unused := unused_validators st in
  if decide (unused = ∅) then Ok tt
  else Raise (ConfigError (unused_message unused)).

End Registry.

(** * Model instances ([main.py]) *)

#[global] Instance result_fmap : FMap Result := λ A B f m,
  match m with
  | Ok a => Ok (f a)
  | Raise e => Raise e
  end.

Module Model.

(** ** Values

    The Python values an instance can hold, as far as [_get_value] tells them
    apart: [None], booleans, integers, strings, members of a plain [Enum]
    (with their [value]), lists and tuples (the sequence-like values kept
    here), dicts with string keys, and model instances.  An instance carries
    the name of its class, its [__dict__], its [__fields_set__] and the
    values of its private attributes, which live in slots. *)

Record InstanceOf (V : Type) := {
  cls : string;
  __dict__ : list (string * V);
  __fields_set__ : gset string;
  slots : list (string * V)
}.
Arguments cls {V} _.
Arguments __dict__ {V} _.
Arguments __fields_set__ {V} _.
Arguments slots {V} _.

#[warnings="-register-all"]
Inductive Value :=
| VNone
| VBool (b : bool)
| VInt (z : Z)
| VStr (s : string)
| VEnum (enum member : string) (value : Value)
| VList (items : list Value)
| VTuple (items : list Value)
| VDict (items : list (string * Value))
| VModel (m : InstanceOf Value).

Abbreviation Instance := (InstanceOf Value).

(** ** Dicts

    A [dict] with string keys is the list of its items in insertion order;
    assigning an existing key keeps its position. *)
Section dict.
Context {V : Type}.

Fixpoint dict_get (k : string) (d : list (string * V)) : option V :=
  match d with
  | [] => None
  | (k', v) :: d => if decide (k = k') then Some v else dict_get k d
  end.

(** [k in d] *)
Definition dict_in (k : string) (d : list (string * V)) : bool :=
  match dict_get k d with Some _ => true | None => false end.

(** [d[k] = v] *)
Fixpoint dict_set (k : string) (v : V) (d : list (string * V)) :=
  match d with
  | [] => [(k, v)]
  | (k', v') :: d =>
      if decide (k = k') then (k, v) :: d else (k', v') :: dict_set k v d
  end.

(** [d.update(items)] *)
Definition dict_update (d items : list (string * V)) : list (string * V) :=
  foldl (λ d kv, dict_set kv.1 kv.2 d) d items.

(** [dict(items)] *)
Definition dict_of (items : list (string * V)) : list (string * V) :=
  dict_update [] items.

(** [set(d.keys())] *)
Definition dict_keys (d : list (string * V)) : gset string :=
  list_to_set d.*1.
End dict.

(** Running a fallible function over a list, left to right. *)
Section traverse.
Context {A B : Type} (f : A → Result B).

Fixpoint mapM (l : list A) : Result (list B) :=
  match l with
  | [] => Ok []
  | x :: l => y ← f x; ys ← mapM l; Ok (y :: ys)
  end.
End traverse.

(** ** Classes

    What the code reads of a field object ([fields.py] is not among the
    sources): the attributes [name], [alias], [required], [default], [final],
    [field_info.allow_mutation], and the methods [get_default] and
    [validate], which returns the value and an error or [None]. *)
Record Field := {
  name : string;
  alias : string;
  required : bool;
  default : Value;
  default_factory : option (unit → Value);
  final : bool;
  field_info_allow_mutation : bool;
  validate : Value → list (string * Value) → Value * option string
}.

(** Modelled from the spec: [alt_alias] of the absent field class.  A field
    has an alternate name when its alias is not its name. *)
Definition alt_alias (field : Field) : bool :=
  bool_decide (alias field ≠ name field).

(** Modelled from the spec: [get_default] of the absent field class.  The
    declared default, or what the declared default factory returns. *)
Definition get_default (field : Field) : Value :=
  match default_factory field with
  | Some factory => factory tt
  | None => default field
  end.

Inductive Extra := allow | ignore | forbid.

#[global] Instance Extra_eq_dec : EqDecision Extra.
Proof. solve_decision. Defined.

Record BaseConfig := {
  extra : Extra;
  allow_mutation : bool;
  frozen : bool;
  validate_assignment : bool;
  use_enum_values : bool
}.

(** A class made by the metaclass: its name, [__fields__] in declaration
    order, [__config__], the [Config] class of its body, and
    [__private_attributes__] with what each [get_default()] returns
    ([None] for [Undefined]). *)
Record ModelClass := {
  __name__ : string;
  __fields__ : list (string * Field);
  __config__ : BaseConfig;
  Config : BaseConfig;
  __private_attributes__ : list (string * option Value)
}.

(** The keyword arguments of [dict()] and [_iter()] other than [include]
    and [exclude]. *)
Record Options := {
  to_dict : bool;
  by_alias : bool;
  exclude_unset : bool;
  exclude_defaults : bool;
  exclude_none : bool
}.

(** The double quote of the error messages. *)
Definition dq : string := String (Ascii.ascii_of_nat 34) EmptyString.

Definition is_none (v : Value) : bool :=
  match v with VNone => true | _ => false end.

Section program.
(** The classes of the program by name, and the constants and the helper
    of [utils.py] that [main.py] imports. *)
Context (classes : string → ModelClass)
        (DUNDER_ATTRIBUTES : gset string)
        (ROOT_KEY : string)
        (ValueItems_is_true : Value → bool).

(** [object.__setattr__] on a name other than [__dict__] and
    [__fields_set__].  The slots of an instance are [__dict__],
    [__fields_set__] (line 122) and the private attributes of its class;
    an attribute that is no slot lands in the instance [__dict__], which
    holds the values. *)
Definition object_setattr (self : Instance) (attr : string) (value : Value)
    : Instance :=
  if dict_in attr (__private_attributes__ (classes (cls self)))
  then {| cls := cls self; __dict__ := __dict__ self;
          __fields_set__ := __fields_set__ self;
          slots := dict_set attr value (slots self) |}
  else {| cls := cls self; __dict__ := dict_set attr value (__dict__ self);
          __fields_set__ := __fields_set__ self;
          slots := slots self |}.

(** Lines 208-212. *)
Definition _init_private_attributes (self : Instance) : Instance :=
  foldl (λ self kv,
           match kv.2 with
           | Some default => object_setattr self kv.1 default
           | None => self
           end)
        self (__private_attributes__ (classes (cls self))).

(** One round of the loop of [construct] (lines 378-384). *)
Definition construct_field (values fields_values : list (string * Value))
    (item : string * Field) : list (string * Value) :=
  let '(name, field) := item in
  match (if alt_alias field then dict_get (alias field) values else None) with
  | Some v => dict_set name v fields_values
  | None =>
      match dict_get name values with
      | Some v => dict_set name v fields_values
      | None =>
          if negb (required field)
          then dict_set name (get_default field) fields_values
          else fields_values
      end
  end.

(** Lines 369-391: [cls.construct(_fields_set, **values)]. *)
Definition construct (cls : string) (_fields_set : option (gset string))
    (values : list (string * Value)) : Instance :=
  let fields_values :=
    foldl (construct_field values) [] (__fields__ (classes cls)) in
  let fields_values := dict_update fields_values values in
  let _fields_set :=
    match _fields_set with
    | None => dict_keys values
    | Some s => s
    end in
  _init_private_attributes
    {| cls := cls; __dict__ := fields_values;
       __fields_set__ := _fields_set; slots := [] |}.

(** Lines 138-192.  The outcome of the call and the instance after it. *)
Definition __setattr__ (self : Instance) (name : string) (value : Value)
    : Result unit * Instance :=
  let C := classes (cls self) in
  if dict_in name (__private_attributes__ C)
     || bool_decide (name ∈ DUNDER_ATTRIBUTES)
  then (Ok (), object_setattr self name value)
  else if bool_decide (extra (__config__ C) ≠ allow)
          && negb (dict_in name (__fields__ C))
  then (Raise (ValueError (dq +:+ __name__ C +:+ dq +:+ " object has no field " +:+ dq
                           +:+ name +:+ dq)), self)
  else if negb (allow_mutation (__config__ C)) || frozen (__config__ C)
  then (Raise (TypeError (dq +:+ __name__ C
          +:+ dq +:+ " is immutable and does not support item assignment")), self)
  else if from_option final false (dict_get name (__fields__ C))
  then (Raise (TypeError (dq +:+ __name__ C +:+ dq +:+ " object " +:+ dq +:+ name
          +:+ dq +:+ " field is final and does not support reassignment")), self)
  else
    let add_name (self : Instance) : Instance :=
      {| cls := cls self; __dict__ := __dict__ self;
         __fields_set__ := {[name]} ∪ __fields_set__ self;
         slots := slots self |} in
    let set_dict (self : Instance) d : Instance :=
      {| cls := cls self; __dict__ := d;
         __fields_set__ := __fields_set__ self; slots := slots self |} in
    if validate_assignment (__config__ C) then
      let new_values := dict_set name value (__dict__ self) in
      match dict_get name (__fields__ C) with
      | Some known_field =>
          if negb (field_info_allow_mutation known_field)
          then (Raise (TypeError (dq +:+ Model.name known_field
                  +:+ dq +:+ " has allow_mutation set to False and cannot be assigned")),
                self)
          else
            let dict_without_original_value :=
              filter (λ kv : string * Value, kv.1 ≠ name) (__dict__ self) in
            match validate known_field value dict_without_original_value with
            | (_, Some error_) => (Raise (ValidationError name error_), self)
            | (value, None) =>
                (Ok (), add_name (set_dict self (dict_set name value new_values)))
            end
      | None => (Ok (), add_name (set_dict self new_values))
      end
    else (Ok (), add_name (set_dict self (dict_set name value (__dict__ self)))).

(** Lines 664-689.  [include], [exclude] and [update] are mappings or
    [None]; a mapping is false when empty. *)
Definition _calculate_keys (self : Instance)
    (include exclude : option (list (string * Value)))
    (exclude_unset : bool) (update : option (list (string * Value)))
    : option (gset string) :=
  match include, exclude, exclude_unset with
  | None, None, false => None
  | _, _, _ =>
      let keys :=
        if exclude_unset then __fields_set__ self
        else dict_keys (__dict__ self) in
      let keys :=
        match include with
        | Some include => keys ∩ dict_keys include
        | None => keys
        end in
      let keys :=
        match update with
        | Some ((_ :: _) as update) => keys ∖ dict_keys update
        | _ => keys
        end in
      let keys :=
        match exclude with
        | Some ((_ :: _) as exclude) =>
            keys ∖ dict_keys
                     (filter (λ kv : string * Value,
                                ValueItems_is_true kv.2 = true) exclude)
        | _ => keys
        end in
      Some keys
  end.

(** [_iter], [dict] and [copy] call [_get_value], which calls [dict] and
    [copy] on nested instances: they are written over the function
    [get_value] first and closed below.  [include] and [exclude] are [None]
    throughout ([ValueItems] is not among the sources). *)
Section over_get_value.
Variable get_value : string → Options → Value → Result Value.

(** One round of the loop of [_iter] (lines 637-662): nothing or one
    pair is yielded.  Under [exclude_defaults], when the field is
    declared and not required, the right operand of [and] is evaluated;
    it starts with the arguments of [getattr], among them the global
    name [_missing], which [main.py] neither defines nor imports. *)
Definition iter_item (self : Instance) (o : Options)
    (allowed_keys : option (gset string)) (item : string * Value)
    : Result (list (string * Value)) :=
  let '(field_key, v) := item in
  let fields := __fields__ (classes (cls self)) in
  if from_option (λ keys, bool_decide (field_key ∉ keys)) false allowed_keys
     || (exclude_none o && is_none v)
  then Ok []
  else
    skip ← (if exclude_defaults o then
              let model_field := dict_get field_key fields in
              if negb (from_option required true model_field)
              then Raise (NameError "_missing")
              else Ok false
            else Ok false);
    if (skip : bool) then Ok []
    else
      let dict_key :=
        if by_alias o
        then from_option alias field_key (dict_get field_key fields)
        else field_key in
      v ← (if to_dict o then get_value (cls self) o v else Ok v);
      Ok [(dict_key, v)].

(** Lines 607-662; the pairs the generator yields, or the exception that
    ends it. *)
Definition iter_with (self : Instance) (o : Options)
    : Result (list (string * Value)) :=
  let allowed_keys := _calculate_keys self None None (exclude_unset o) None in
  if bool_decide (allowed_keys = None)
     && negb (to_dict o || by_alias o || exclude_unset o
              || exclude_defaults o || exclude_none o)
  then Ok (__dict__ self)
  else
    yielded ← mapM (iter_item self o allowed_keys) (__dict__ self);
    Ok (List.concat yielded).

(** Lines 214-246. *)
Definition dict_with (self : Instance) (by_alias : bool)
    (skip_defaults : option bool)
    (exclude_unset exclude_defaults exclude_none : bool)
    : Result (list (string * Value)) :=
  let exclude_unset :=
    match skip_defaults with
    | Some skip_defaults => skip_defaults
    | None => exclude_unset
    end in
  dict_of <$> iter_with self
    {| to_dict := true; by_alias := by_alias;
       exclude_unset := exclude_unset;
       exclude_defaults := exclude_defaults;
       exclude_none := exclude_none |}.

(** Lines 393-409; [deepcopy] returns an equal value. *)
Definition _copy_and_set_values (self : Instance)
    (values : list (string * Value)) (fields_set : gset string)
    (deep : bool) : Instance :=
  foldl (λ m kv,
           match dict_get kv.1 (slots self) with
           | Some value => object_setattr m kv.1 value
           | None => m
           end)
        {| cls := cls self; __dict__ := values;
           __fields_set__ := fields_set; slots := [] |}
        (__private_attributes__ (classes (cls self))).

(** Lines 411-441. *)
Definition copy_with (self : Instance)
    (update : option (list (string * Value))) (deep : bool)
    : Result Instance :=
  items ← iter_with self
    {| to_dict := false; by_alias := false; exclude_unset := false;
       exclude_defaults := false; exclude_none := false |};
  let values := dict_update (dict_of items) (from_option id [] update) in
  let fields_set :=
    match update with
    | Some ((_ :: _) as update) => __fields_set__ self ∪ dict_keys update
    | _ => __fields_set__ self
    end in
  Ok (_copy_and_set_values self values fields_set deep).
End over_get_value.

(** Lines 511-584, for [include] and [exclude] [None]. *)
Fixpoint _get_value (cls : string) (o : Options) (v : Value) {struct v}
    : Result Value :=
  match v with
  | VModel m =>
      if to_dict o then
        v_dict ← dict_with _get_value m (by_alias o) None (exclude_unset o)
                   (exclude_defaults o) (exclude_none o);
        match dict_get ROOT_KEY v_dict with
        | Some root => Ok root
        | None => Ok (VDict v_dict)
        end
      else VModel <$> copy_with _get_value m None false
  | VDict items =>
      VDict <$> mapM (λ kv : string * Value,
                        v_ ← _get_value cls o kv.2; Ok (kv.1, v_)) items
  | VList items => VList <$> mapM (_get_value cls o) items
  | VTuple items => VTuple <$> mapM (_get_value cls o) items
  | VEnum _ _ value =>
      if use_enum_values (Config (classes cls)) then Ok value else Ok v
  | _ => Ok v
  end.

Definition _iter : Instance → Options → Result (list (string * Value)) :=
  iter_with _get_value.

Definition dict : Instance → bool → option bool → bool → bool → bool →
                  Result (list (string * Value)) :=
  dict_with _get_value.

Definition copy : Instance → option (list (string * Value)) → bool →
                  Result Instance :=
  copy_with _get_value.

Definition is_model (v : Value) : bool :=
  match v with VModel _ => true | _ => false end.

(** When [v == w] is [True].  For the values that are no instances this is
    the [==] of Python: [None], [bool] and [int] (a [bool] is an [int]),
    [str], the members of an [Enum] (equal to themselves only), lists and
    tuples item by item, dicts key by key.  For an instance it is
    [BaseModel.__eq__], lines 691-695: [self.dict() == other.dict()] when
    [other] is an instance, [self.dict() == other] when not; Python calls
    it with the operands swapped when only the right one is an instance. *)
#[warnings="-register-all"]
Inductive equal : Value → Value → Prop :=
| equal_None : equal VNone VNone
| equal_bool b : equal (VBool b) (VBool b)
| equal_int z : equal (VInt z) (VInt z)
| equal_bool_int b : equal (VBool b) (VInt (Z.b2z b))
| equal_int_bool b : equal (VInt (Z.b2z b)) (VBool b)
| equal_str s : equal (VStr s) (VStr s)
| equal_enum enum member value :
    equal (VEnum enum member value) (VEnum enum member value)
| equal_list items items' :
    Forall2 equal items items' → equal (VList items) (VList items')
| equal_tuple items items' :
    Forall2 equal items items' → equal (VTuple items) (VTuple items')
| equal_dict d d' :
    dict_keys d = dict_keys d' →
    (∀ k v w, dict_get k d = Some v → dict_get k d' = Some w → equal v w) →
    equal (VDict d) (VDict d')
| equal_instance self other :
    __eq__ self other → equal (VModel self) other
| equal_reflected v other :
    is_model v = false → __eq__ other v → equal v (VModel other)
with __eq__ : Instance → Value → Prop :=
| __eq__instance self other d d' :
    dict self false None false false false = Ok d →
    dict other false None false false false = Ok d' →
    equal (VDict d) (VDict d') →
    __eq__ self (VModel other)
| __eq__other self other d :
    is_model other = false →
    dict self false None false false false = Ok d →
    equal (VDict d) other →
    __eq__ self other.

End program.

(** ** Pickling, the schema cache and [create_model] *)

(** The state dict of [__getstate__]: its entries [__dict__] and
    [__fields_set__], and [__private_attribute_values__], which
    [__setstate__] reads with [state.get(..., {})]. *)
Record PickleState := {
  state_dict : list (string * Value);
  state_fields_set : gset string;
  state_private_attribute_values : option (list (string * Value))
}.

Section pickling.
Context (classes : string → ModelClass).

(** Lines 194-200.  [getattr(self, k, Undefined)] reads the slot of the
    private attribute [k]; the ones that are [Undefined] are left out. *)
Definition __getstate__ (self : Instance) : PickleState :=
  let private_attrs :=
    omap (λ kv : string * option Value,
            (λ v, (kv.1, v)) <$> dict_get kv.1 (slots self))
         (__private_attributes__ (classes (cls self))) in
  {| state_dict := __dict__ self;
     state_fields_set := __fields_set__ self;
     state_private_attribute_values := Some (dict_of private_attrs) |}.

(** Lines 202-206. *)
Definition __setstate__ (self : Instance) (state : PickleState) : Instance :=
  foldl (λ self kv, object_setattr classes self kv.1 kv.2)
        {| cls := cls self; __dict__ := state_dict state;
           __fields_set__ := state_fields_set state; slots := slots self |}
        (from_option id [] (state_private_attribute_values state)).
End pickling.

Section schema_cache.
Context {Schema : Type}.

(** Lines 443-450.  [__schema_cache__] is keyed by the pair of arguments;
    [model_schema] ([schema.py]) is what computes a schema when the call is
    made. *)
Definition schema (model_schema : bool → string → Schema)
    (__schema_cache__ : gmap (bool * string) Schema)
    (by_alias : bool) (ref_template : string)
    : Schema * gmap (bool * string) Schema :=
  match __schema_cache__ !! (by_alias, ref_template) with
  | Some cached => (cached, __schema_cache__)
  | None =>
      let s := model_schema by_alias ref_template in
      (s, <[(by_alias, ref_template) := s]> __schema_cache__)
  end.
End schema_cache.

(** A field definition given to [create_model]: a tuple, or anything else. *)
Inductive FieldDefinition (Obj : Type) :=
| DTuple (items : list Obj)
| DValue (value : Obj).
Arguments DTuple {Obj} items.
Arguments DValue {Obj} value.

(** What the namespace of the new class holds: the annotations, the module
    name, an object (a default, a validator, the [Config] class), or the
    original bases. *)
Inductive NamespaceValue (Obj Cls : Type) :=
| NAnnotations (annotations : list (string * Obj))
| NModule (module : string)
| NObject (o : Obj)
| NBases (bases : list Cls).
Arguments NAnnotations {Obj Cls} annotations.
Arguments NModule {Obj Cls} module.
Arguments NObject {Obj Cls} o.
Arguments NBases {Obj Cls} bases.

Section create_model.
(** The objects and classes [create_model] handles without looking into
    them, their truth value, and what it calls: [is_valid_field] and
    [inherit_config] of the package, [resolve_bases] (which answers [None]
    when it returns the very tuple it was given) and [prepare_class] of
    [types], and the metaclass call that makes the class. *)
Context {Obj Cls Meta Class : Type}
        (truthy : Obj → bool)
        (is_valid_field : string → bool)
        (inherit_config : Obj → Obj)
        (BaseModel : Cls)
        (resolve_bases : list Cls → option (list Cls))
        (prepare_class :
           string → list Cls → list (string * Obj) →
           Meta * list (string * NamespaceValue Obj Cls) * list (string * Obj))
        (call_meta :
           Meta → string → list Cls →
           list (string * NamespaceValue Obj Cls) → list (string * Obj) →
           Result Class).

(** Lines 783-793: a tuple is unpacked into two names. *)
Definition unpack_definition (f_def : FieldDefinition Obj)
    : Result (option Obj * Obj) :=
  match f_def with
  | DTuple [f_annotation; f_value] => Ok (Some f_annotation, f_value)
  | DTuple _ =>
      Raise (ConfigError
        ("field definitions should either be a tuple of (<type>, <default>) or just a "
         +:+ "default value, unfortunately this means tuples as "
         +:+ "default values are not allowed"))
  | DValue f_def => Ok (None, f_def)
  end.

(** The loop of lines 780-797, with the warnings it gives. *)
Fixpoint field_definitions_loop
    (field_definitions : list (string * FieldDefinition Obj))
    (annotations fields : list (string * Obj))
    : list string * Result (list (string * Obj) * list (string * Obj)) :=
  match field_definitions with
  | [] => ([], Ok (annotations, fields))
  | (f_name, f_def) :: field_definitions =>
      let warned :=
        if is_valid_field f_name then []
        else ["fields may not start with an underscore, ignoring "
              +:+ dq +:+ f_name +:+ dq] in
      match unpack_definition f_def with
      | Raise e => (warned, Raise e)
      | Ok (f_annotation, f_value) =>
          let annotations :=
            match f_annotation with
            | Some a => if truthy a then dict_set f_name a annotations
                        else annotations
            | None => annotations
            end in
          let fields := dict_set f_name f_value fields in
          let '(warnings, r) :=
            field_definitions_loop field_definitions annotations fields in
          (warned ++ warnings, r)
      end
  end.

(** Lines 763-809: the warnings given, and the arguments of the metaclass
    call of line 810. *)
Definition create_model_arguments (__model_name : string)
    (__config__ : option Obj) (__base__ : option (Cls + list Cls))
    (__module__ : string) (__validators__ : option (list (string * Obj)))
    (__cls_kwargs__ : option (list (string * Obj))) (__slots__ : option Obj)
    (field_definitions : list (string * FieldDefinition Obj))
    : list string
      * Result (Meta * list Cls * list (string * NamespaceValue Obj Cls)
                * list (string * Obj)) :=
  let warned :=
    match __slots__ with
    | Some _ => ["__slots__ should not be passed to create_model"]
    | None => []
    end in
  match (match __base__, __config__ with
         | Some _, Some _ =>
             Raise (ConfigError
               "to avoid confusion __config__ and __base__ cannot be used together")
         | Some (inl base), None => Ok [base]
         | Some (inr bases), None => Ok bases
         | None, _ => Ok [BaseModel]
         end) with
  | Raise e => (warned, Raise e)
  | Ok __base__ =>
      let __cls_kwargs__ := from_option id [] __cls_kwargs__ in
      let '(warnings, looped) := field_definitions_loop field_definitions [] [] in
      match looped with
      | Raise e => (warned ++ warnings, Raise e)
      | Ok (annotations, fields) =>
          let namespace : list (string * NamespaceValue Obj Cls) :=
            [("__annotations__", NAnnotations annotations);
             ("__module__", NModule __module__)] in
          let namespace :=
            match __validators__ with
            | Some ((_ :: _) as validators) =>
                dict_update namespace (prod_map id NObject <$> validators)
            | _ => namespace
            end in
          let namespace :=
            dict_update namespace (prod_map id NObject <$> fields) in
          let namespace :=
            match __config__ with
            | Some config =>
                if truthy config
                then dict_set "Config" (NObject (inherit_config config)) namespace
                else namespace
            | None => namespace
            end in
          let resolved_bases := from_option id __base__ (resolve_bases __base__) in
          let '(meta, ns, kwds) :=
            prepare_class __model_name resolved_bases __cls_kwargs__ in
          let ns :=
            match resolve_bases __base__ with
            | Some _ => dict_set "__orig_bases__" (NBases __base__) ns
            | None => ns
            end in
          let namespace := dict_update namespace ns in
          (warned ++ warnings, Ok (meta, resolved_bases, namespace, kwds))
      end
  end.

(** Lines 736-810. *)
Definition create_model (__model_name : string)
    (__config__ : option Obj) (__base__ : option (Cls + list Cls))
    (__module__ : string) (__validators__ : option (list (string * Obj)))
    (__cls_kwargs__ : option (list (string * Obj))) (__slots__ : option Obj)
    (field_definitions : list (string * FieldDefinition Obj))
    : list string * Result Class :=
  let '(warnings, arguments) :=
    create_model_arguments __model_name __config__ __base__ __module__
      __validators__ __cls_kwargs__ __slots__ field_definitions in
  (warnings,
   '(meta, resolved_bases, namespace, kwds) ← arguments;
   call_meta meta __model_name resolved_bases namespace kwds).
End create_model.

(** ** Parsing and validating objects *)

(** What the methods below end with when they do not return: an exception
    of the package, or one of Python's own, [KeyError] from a subscript and
    [AttributeError] from an attribute that is not there. *)
Inductive Raised :=
| Package (e : Exception)
| KeyError (key : string)
| AttributeError (attr : string)
| DictError.

Definition package {A : Type} (r : Result A) : Raised + A :=
  match r with
  | Ok a => inr a
  | Raise e => inl (Package e)
  end.

(** [Config.copy_on_model_validation]: a string, or another object with its
    truth value. *)
Inductive CopyOnValidation :=
| CString (s : string)
| CObject (truth : bool).

Section parsing.
(** The classes by name; [ROOT_KEY]; whether the shape of a field is in
    [MAPPING_LIKE_SHAPES]; [validate_python] of the validator of a class;
    what [dict(obj)] gives for an object that is no dict ([None] when it
    raises [TypeError] or [ValueError]); the name of the class of an
    object; [issubclass]; and the attributes [orm_mode] and
    [copy_on_model_validation] of the config of a class. *)
Context (classes : string → ModelClass)
        (ROOT_KEY : string)
        (mapping_like : Field → bool)
        (validate_python :
           string → list (string * Value) →
           Result (list (string * Value) * gset string))
        (as_dict : Value → option (list (string * Value)))
        (class_name : Value → string)
        (issubclass : string → string → bool)
        (orm_mode : string → bool)
        (copy_on_model_validation : string → CopyOnValidation).

(** Lines 125-136, on the object [cls.__new__(cls)] that a call of the
    class makes. *)
Definition __init__ (cls : string) (data : list (string * Value))
    : Result Instance :=
  '(values, fields_set) ← validate_python cls data;
  Ok (_init_private_attributes classes
        {| Model.cls := cls; __dict__ := values;
           __fields_set__ := fields_set; slots := [] |}).

(** [isinstance(obj, dict) and obj.keys() == {ROOT_KEY}] *)
Definition is_root_dict (obj : Value) : bool :=
  match obj with
  | VDict d => bool_decide (dict_keys d = {[ROOT_KEY]})
  | _ => false
  end.

(** Lines 290-298.  The right operand of [or] subscripts [__fields__]. *)
Definition _enforce_dict_if_root (cls : string) (obj : Value)
    : Raised + Value :=
  if negb (is_root_dict obj) then inr (VDict [(ROOT_KEY, obj)])
  else
    match dict_get ROOT_KEY (__fields__ (classes cls)) with
    | None => inl (KeyError ROOT_KEY)
    | Some field =>
        if mapping_like field then inr (VDict [(ROOT_KEY, obj)])
        else inr obj
    end.

(** Lines 300-309. *)
Definition parse_obj (cls : string) (obj : Value) : Raised + Instance :=
  match _enforce_dict_if_root cls obj with
  | inl e => inl e
  | inr (VDict obj) => package (__init__ cls obj)
  | inr obj =>
      match as_dict obj with
      | Some obj => package (__init__ cls obj)
      | None =>
          inl (Package
                 (ValidationError ROOT_KEY
                    (__name__ (classes cls) +:+ " expected dict not "
                     +:+ class_name obj)))
      end
  end.

(** Lines 465-502, [BaseModel.validate] (a field has a [validate] of its
    own): the warnings given and the outcome.  [from_orm] is not defined in
    [main.py] (it is commented out) nor inherited. *)
Definition BaseModel_validate (cls : string) (value : Value)
    : list string * (Raised + Instance) :=
  match value with
  | VModel m =>
      if issubclass (Model.cls m) cls then
        let setting := copy_on_model_validation cls in
        let known :=
          match setting with
          | CString s =>
              bool_decide (s ∈ (["deep"; "shallow"; "none"] : list string))
          | CObject _ => false
          end in
        let truth :=
          match setting with
          | CString s => negb (bool_decide (s = EmptyString))
          | CObject truth => truth
          end in
        let warned :=
          if known then []
          else ["`copy_on_model_validation` should be a string: 'deep', 'shallow' or 'none'"] in
        let deep_copy : option bool :=
          if negb known && truth then Some false else None in
        let deep_copy :=
          match setting with
          | CString "shallow" => Some false
          | CString "deep" => Some true
          | _ => deep_copy
          end in
        match deep_copy with
        | None => (warned, inr m)
        | Some deep_copy =>
            (warned,
             inr (_copy_and_set_values classes m (__dict__ m)
                    (__fields_set__ m) deep_copy))
        end
      else
        ([], match _enforce_dict_if_root cls value with
             | inl e => inl e
             | inr (VDict value) => package (__init__ cls value)
             | inr value =>
                 if orm_mode cls then inl (AttributeError "from_orm")
                 else match as_dict value with
                      | Some value_as_dict => package (__init__ cls value_as_dict)
                      | None => inl DictError
                      end
             end)
  | _ =>
      ([], match _enforce_dict_if_root cls value with
           | inl e => inl e
           | inr (VDict value) => package (__init__ cls value)
           | inr value =>
               if orm_mode cls then inl (AttributeError "from_orm")
               else match as_dict value with
                    | Some value_as_dict => package (__init__ cls value_as_dict)
                    | None => inl DictError
                    end
           end)
  end.
End parsing.

End Model.

(** * Vocabulary of the statements *)

Import Registry.

(** The sequence stored for a field: what the dict entry names in the store
    (empty when the field is not a key). *)
Definition field_seq (st : St) (f : string) : list FieldValidator :=
  from_option (deref st.1) [] (_field_validators st.2 !! f).

(** The validators a run of registrations adds for field [f]: one copy per
    occurrence of [f] in the target tuple, in registration order. *)
Definition own_validators (f : string) (regs : list Tagged) : list FieldValidator :=
  flat_map
    (λ value,
       match __field_validator__ value with
       | Some (fields, validator) =>
           flat_map (λ g, if decide (g = f) then [validator] else []) fields
       | None => []
       end) regs.

(** Schema assembly: the registrations of a class body, in order. *)
Definition extract_all (regs : list Tagged) (st : St) : St :=
  foldl (λ st value, (extract_validator value st).2) st regs.

(** Every reference of the registry names an object of the store. *)
Definition closed (st : St) : Prop :=
  map_Forall (λ _ r, r < length st.1) (_field_validators st.2).

(** The registry's lists are its own: they were allocated after the store
    [h0], which is still intact, and no two keys share a list. *)
Record owned (h0 : Heap) (st : St) : Prop := {
  owned_frame : take (length h0) st.1 = h0;
  owned_range : ∀ k r,
    _field_validators st.2 !! k = Some r → length h0 ≤ r < length st.1;
  owned_inj : ∀ k1 k2 r,
    _field_validators st.2 !! k1 = Some r →
    _field_validators st.2 !! k2 = Some r → k1 = k2
}.

(** The plain attributes of two registries agree. *)
Definition same_lists (C C' : ValidationFunctions) : Prop :=
  _all_fields_validators C' = _all_fields_validators C
  ∧ root_validators C' = root_validators C
  ∧ _used_validators C' = _used_validators C.

(** An entry that makes [check_for_unused] fail: it is stored for a key that
    was never resolved, and its field-existence check is on. *)
Definition offending (st : St) (v : FieldValidator) : Prop :=
  ∃ f r, _field_validators st.2 !! f = Some r
         ∧ (f ∉ _used_validators st.2)
         ∧ (v ∈ deref st.1 r)
         ∧ check_fields v = true.

Definition with_roots (roots : list RootValidator) (self : ValidationFunctions) :=
  {| _field_validators := _field_validators self;
     _all_fields_validators := _all_fields_validators self;
     root_validators := roots;
     _used_validators := _used_validators self |}.

(** What the loop of [construct] stores for a declared field: the value
    given under its alternate alias, else the value given under its name,
    else its default when it is not required, else nothing. *)
Definition field_value (values : list (string * Model.Value)) (name : string)
    (field : Model.Field) : option Model.Value :=
  match (if Model.alt_alias field
         then Model.dict_get (Model.alias field) values else None) with
  | Some v => Some v
  | None =>
      match Model.dict_get name values with
      | Some v => Some v
      | None =>
          if Model.required field then None else Some (Model.get_default field)
      end
  end.

(** The fields of a class as the metaclass builds them: one entry per name,
    filed under the field's own name. *)
Definition fields_ok (C : Model.ModelClass) : Prop :=
  NoDup (Model.__fields__ C).*1
  ∧ Forall (λ kf : string * Model.Field, Model.name kf.2 = kf.1)
           (Model.__fields__ C).

(** A value that [_get_value] returns as it is: no model instance in it,
    and no [Enum] member unless members are kept. *)
Fixpoint plain_value (enums_kept : bool) (v : Model.Value) : bool :=
  match v with
  | Model.VModel _ => false
  | Model.VEnum _ _ _ => enums_kept
  | Model.VList items | Model.VTuple items => forallb (plain_value enums_kept) items
  | Model.VDict items => forallb (λ kv, plain_value enums_kept kv.2) items
  | _ => true
  end.

(** The options of the full projection: [to_dict] on, no filter. *)
Definition full_projection : Model.Options :=
  {| Model.to_dict := true; Model.by_alias := false;
     Model.exclude_unset := false; Model.exclude_defaults := false;
     Model.exclude_none := false |}.

(** A value that is equal to what [_get_value] makes of it in the full
    projection: outside nested instances it holds no [Enum] member, unless
    members are kept, and the nested instances in it hold no entry
    [ROOT_KEY] (one that does is replaced by the value of that entry).
    What is inside a nested instance does not matter: an instance is
    compared through its own projection. *)
Fixpoint keeps_equal (ROOT_KEY : string) (enums_kept : bool)
    (v : Model.Value) : bool :=
  match v with
  | Model.VModel m => negb (Model.dict_in ROOT_KEY (Model.__dict__ m))
  | Model.VEnum _ _ _ => enums_kept
  | Model.VList items | Model.VTuple items =>
      forallb (keeps_equal ROOT_KEY enums_kept) items
  | Model.VDict items =>
      forallb (λ kv, keeps_equal ROOT_KEY enums_kept kv.2) items
  | _ => true
  end.

Section statements.
Import Model.
Context (classes : string → ModelClass) (DUNDER_ATTRIBUTES : gset string)
        (ROOT_KEY : string) (ValueItems_is_true : Value → bool).

(** A run of assignments, failed ones included. *)
Definition assign_all (self : Instance) (muts : list (string * Value))
    : Instance :=
  foldl (λ self kv, (__setattr__ classes DUNDER_ATTRIBUTES self kv.1 kv.2).2)
        self muts.

(** C8, as stated: every non-required declared field whose name is not a
    supplied key holds its declared default. *)
Definition construct_as_stated cls values : Prop :=
  let m := construct classes cls None values in
  __fields_set__ m = dict_keys values
  ∧ (∀ k v, dict_get k values = Some v → dict_get k (__dict__ m) = Some v)
  ∧ (∀ name field,
       dict_get name (__fields__ (classes cls)) = Some field →
       required field = false →
       dict_get name values = None →
       dict_get name (__dict__ m) = Some (get_default field)).

(** C5, as stated: the instance built from the full projection of [x] has
    values equal to those of [x], but for keys [x] does not hold and which
    are non-required declared fields left at their default. *)
Definition roundtrip_as_stated x : Prop :=
  ∃ data, dict classes ROOT_KEY ValueItems_is_true x false None false false false = Ok data
    ∧ let y := construct classes (cls x) None data in
      ∀ k, match dict_get k (__dict__ x) with
           | Some v =>
               ∃ w, dict_get k (__dict__ y) = Some w
                    ∧ equal classes ROOT_KEY ValueItems_is_true v w
           | None =>
               dict_get k (__dict__ y) = None
               ∨ ∃ field,
                   dict_get k (__fields__ (classes (cls x))) = Some field
                   ∧ required field = false
                   ∧ (k ∉ __fields_set__ x)
                   ∧ dict_get k (__dict__ y) = Some (get_default field)
           end.
End statements.

(** ** Worked examples *)

Definition mk_validator (name : string) (id : nat) (check : bool) : FieldValidator :=
  {| base := {| function := {| __name__ := name; fn_id := id |}; mode := after |};
     check_fields := check; sub_path := None |}.

(** A registry with one validator on field [x] and one all-fields validator. *)
Definition shared_store : list (list FieldValidator) :=
  [[mk_validator "check_x" 1 true]].
Definition shared_registry : ValidationFunctions :=
  {| _field_validators := {["x" := 0]};
     _all_fields_validators := [mk_validator "check_all" 2 true];
     root_validators := [];
     _used_validators := ∅ |}.

Definition root_tagged : Tagged :=
  {| __field_validator__ := None;
     __root_validator__ :=
       Some {| function := {| __name__ := "check_model"; fn_id := 3 |};
               mode := after |} |}.

Module Examples.
Import Model.

(** A field validator that accepts everything. *)
Definition accept (v : Value) (values : list (string * Value))
    : Value * option string := (v, None).

Definition field (name alias : string) (required : bool) (default : Value)
    (final : bool) : Field :=
  {| Model.name := name; Model.alias := alias; Model.required := required;
     Model.default := default; default_factory := None; Model.final := final;
     field_info_allow_mutation := true; validate := accept |}.

Definition config (enum_values : bool) : BaseConfig :=
  {| extra := ignore; allow_mutation := true; frozen := false;
     validate_assignment := false; use_enum_values := enum_values |}.

Definition model (name : string) (fields : list (string * Field))
    (enum_values : bool) : ModelClass :=
  {| __name__ := name; __fields__ := fields;
     __config__ := config enum_values; Config := config enum_values;
     __private_attributes__ := [] |}.

(** [name] a required string, [age] an integer with default 0. *)
Definition Person : ModelClass :=
  model "Person"
    [("name", field "name" "name" true VNone false);
     ("age", field "age" "age" false (VInt 0) false)] false.

(** [f] with default 0, known outside as [a]. *)
Definition Aliased : ModelClass :=
  model "Aliased" [("f", field "f" "a" false (VInt 0) false)] false.

(** [id] is final. *)
Definition Locked : ModelClass :=
  model "Locked" [("id", field "id" "id" true VNone true)] false.

(** [c] holds a member of [Color]; members are exported as their values. *)
Definition Paint : ModelClass :=
  model "Paint" [("c", field "c" "c" true VNone false)] true.

Definition classes (cls : string) : ModelClass :=
  if decide (cls = "Person") then Person
  else if decide (cls = "Aliased") then Aliased
  else if decide (cls = "Locked") then Locked
  else if decide (cls = "Paint") then Paint
  else model cls [] false.

Definition DUNDER_ATTRIBUTES : gset string :=
  list_to_set ["__annotations__"; "__classcell__"; "__doc__"; "__module__";
               "__orig_bases__"; "__orig_class__"; "__qualname__"].

Definition ROOT_KEY : string := "__root__".

Definition is_true (v : Value) : bool :=
  match v with VBool true => true | _ => false end.

Definition person : Instance :=
  construct classes "Person" None [("name", VStr "A")].

Definition locked : Instance :=
  {| cls := "Locked"; __dict__ := [("id", VInt 7)];
     __fields_set__ := {["id"]}; slots := [] |}.

Definition RED : Value := VEnum "Color" "RED" (VInt 1).

Definition paint : Instance :=
  construct classes "Paint" None [("c", RED)].

(** A parent registry with a validator on [x], an all-fields validator and
    a root validator, and the registrations of a subclass. *)
Definition parent_store : list (list Registry.FieldValidator) :=
  [[mk_validator "parent_x" 1 true]].
Definition parent_registry : Registry.ValidationFunctions :=
  {| Registry._field_validators := {["x" := 0]};
     Registry._all_fields_validators := [mk_validator "parent_all" 2 true];
     Registry.root_validators :=
       [{| Registry.function := {| Registry.__name__ := "parent_root";
                                   Registry.fn_id := 3 |};
           Registry.mode := Registry.after |}];
     Registry._used_validators := ∅ |}.
Definition child_registrations : list Registry.Tagged :=
  [{| Registry.__field_validator__ :=
        Some (["x"; "y"], mk_validator "child_xy" 4 true);
      Registry.__root_validator__ := None |}].

(** A class with private attributes: [_token] with a default, [_cache]
    without one. *)
Definition Vault : ModelClass :=
  {| __name__ := "Vault";
     __fields__ := [("id", field "id" "id" true VNone false)];
     __config__ := config false; Config := config false;
     __private_attributes__ :=
       [("_token", Some (VStr "t")); ("_cache", None)] |}.

(** A frozen class. *)
Definition Frozen : ModelClass :=
  {| __name__ := "Frozen";
     __fields__ := [("id", field "id" "id" true VNone false)];
     __config__ :=
       {| extra := ignore; allow_mutation := true; frozen := true;
          validate_assignment := false; use_enum_values := false |};
     Config := config false;
     __private_attributes__ := [] |}.

(** A validator that turns down [None] and takes anything else. *)
Definition not_none (v : Value) (values : list (string * Value))
    : Value * option string :=
  if is_none v then (v, Some "none is not an allowed value") else (v, None).

Definition n_field : Field :=
  {| Model.name := "n"; Model.alias := "n";
     Model.required := true; Model.default := VNone;
     default_factory := None; Model.final := false;
     field_info_allow_mutation := true;
     Model.validate := not_none |}.

(** A class that validates assignments. *)
Definition Checked : ModelClass :=
  {| __name__ := "Checked";
     __fields__ := [("n", n_field)];
     __config__ :=
       {| extra := ignore; allow_mutation := true; frozen := false;
          validate_assignment := true; use_enum_values := false |};
     Config := config false;
     __private_attributes__ := [] |}.

Definition more_classes (cls : string) : ModelClass :=
  if decide (cls = "Vault") then Vault
  else if decide (cls = "Frozen") then Frozen
  else if decide (cls = "Checked") then Checked
  else classes cls.

Definition vault : Instance :=
  construct more_classes "Vault" None [("id", VInt 1)].

Definition frozen_one : Instance :=
  construct more_classes "Frozen" None [("id", VInt 1)].

Definition checked_one : Instance :=
  construct more_classes "Checked" None [("n", VInt 1)].

(** An instance that holds another one, and a [None]. *)
Definition team : Instance :=
  {| cls := "Team";
     __dict__ := [("lead", VModel person); ("motto", VNone)];
     __fields_set__ := {["lead"]}; slots := [] |}.

Definition aliased : Instance :=
  {| cls := "Aliased"; __dict__ := [("f", VInt 1)];
     __fields_set__ := {["f"]}; slots := [] |}.

(** [create_model] over values as objects and class names as classes, with
    the plain metaclass: nothing to resolve in the bases and an empty
    namespace prepared. *)
Definition starts_with_underscore (f : string) : bool :=
  match f with
  | String c _ => bool_decide (c = Ascii.ascii_of_nat 95)
  | EmptyString => false
  end.

Definition make_arguments :=
  create_model_arguments (Obj := Value) (Cls := string) (Meta := unit)
    (λ _, true) (λ f, negb (starts_with_underscore f)) id "BaseModel"
    (λ _, None) (λ _ _ kwds, (tt, [], kwds)).

Definition definitions : list (string * FieldDefinition Value) :=
  [("_hidden", DValue (VInt 1)); ("size", DTuple [VStr "int"; VInt 2])].

(** A validator of the package that takes the data as they are. *)
Definition trusting (cls : string) (data : list (string * Value))
    : Result (list (string * Value) * gset string) :=
  Ok (data, dict_keys data).

Definition same_class (sub cls : string) : bool := bool_decide (sub = cls).

(** An object of class [Vault] before its state is restored. *)
Definition unpickled : Instance :=
  {| cls := "Vault"; __dict__ := []; __fields_set__ := ∅;
     slots := [("_cache", VInt 0)] |}.

(** An instance with a root value, and an instance that holds it. *)
Definition rooted : Instance :=
  {| cls := "Rooted"; __dict__ := [(ROOT_KEY, VInt 5)];
     __fields_set__ := {[ROOT_KEY]}; slots := [] |}.
Definition wrapper : Instance :=
  {| cls := "Wrapper"; __dict__ := [("inner", VModel rooted)];
     __fields_set__ := {["inner"]}; slots := [] |}.

(** An instance with an unset default and a [None]. *)
Definition sparse : Instance :=
  {| cls := "Person";
     __dict__ := [("name", VStr "A"); ("age", VInt 0); ("note", VNone)];
     __fields_set__ := {["name"; "note"]}; slots := [] |}.

(** The namespace [create_model] builds from [definitions] in module [m]. *)
Definition made_namespace : list (string * NamespaceValue Value string) :=
  [("__annotations__", NAnnotations [("size", VStr "int")]);
   ("__module__", NModule "m"); ("_hidden", NObject (VInt 1));
   ("size", NObject (VInt 2))].

End Examples.

Ltac by_computation :=
  match goal with
  | |- ?P => apply (bool_decide_unpack P); vm_compute; exact I
  end.

(** ** Further vocabulary *)

(** Resolving a run of field names, as schema assembly does for the fields
    of a class. *)
Definition resolve_all (names : list string) (st : St) : St :=
  foldl (λ st name, (get_field_validators name st).2) st names.

(** The declared fields, in declaration order, for which the loop of
    [construct] stores a value. *)
Definition filled_fields (values : list (string * Model.Value))
    (fields : list (string * Model.Field)) : list string :=
  omap (λ kf : string * Model.Field,
          (λ _, kf.1) <$> field_value values kf.1 kf.2) fields.

(** No [Enum] member in the value, at any depth and inside nested
    instances, has a value that holds a model instance. *)
Fixpoint enum_values_plain (v : Model.Value) : bool :=
  match v with
  | Model.VModel m =>
      forallb (λ kv, enum_values_plain kv.2) (Model.__dict__ m)
  | Model.VEnum _ _ value => plain_value true value
  | Model.VList items | Model.VTuple items => forallb enum_values_plain items
  | Model.VDict items => forallb (λ kv, enum_values_plain kv.2) items
  | _ => true
  end.

(** The entries a projection keeps when only [exclude_unset] and
    [exclude_none] are at work. *)
Definition kept (fields_set : gset string) (exclude_unset exclude_none : bool)
    (kv : string * Model.Value) : Prop :=
  (exclude_unset = true → kv.1 ∈ fields_set)
  ∧ ¬ (exclude_none = true ∧ Model.is_none kv.2 = true).

#[global] Instance kept_dec fields_set exclude_unset exclude_none kv :
  Decision (kept fields_set exclude_unset exclude_none kv).
Proof. unfold kept. apply _. Defined.

(** The key under which a projection by alias files the entry of [key]:
    the alias of the declared field, or the key itself. *)
Definition exported_key (C : Model.ModelClass) (key : string) : string :=
  from_option Model.alias key (Model.dict_get key (Model.__fields__ C)).

(** The warning [create_model] gives for a field name that
    [is_valid_field] turns down. *)
Definition underscore_warning (f_name : string) : string :=
  "fields may not start with an underscore, ignoring "
  +:+ Model.dq +:+ f_name +:+ Model.dq.

(** A field definition [create_model] cannot unpack: a tuple that is not a
    pair. *)
Definition bad_definition {Obj : Type}
    (field_definitions : list (string * Model.FieldDefinition Obj)) : Prop :=
  ∃ f items, (f, Model.DTuple items) ∈ field_definitions ∧ length items ≠ 2.

(** A registration whose field-existence check is off. *)
Definition loose_registrations : list Tagged :=
  [{| __field_validator__ := Some (["z"], mk_validator "loose_z" 5 false);
      __root_validator__ := None |}].

(** A store with the list of a parent and the list of a class of its own,
    both for field [x]. *)
Definition family_store : list (list FieldValidator) :=
  [[mk_validator "parent_x" 1 true]; [mk_validator "own_x" 6 true]].
Definition own_registry : ValidationFunctions :=
  {| _field_validators := {["x" := 1]};
     _all_fields_validators := [];
     root_validators := [];
     _used_validators := ∅ |}.

(** * Properties of the registry *)

Section store.
Implicit Types (h : Heap) (l : list FieldValidator) (r : loc).

Lemma deref_alloc_new h l : deref (h ++ [l]) (length h) = l.
Proof. unfold deref. by rewrite list_lookup_middle. Qed.

Lemma deref_alloc_old h l r : r < length h → deref (h ++ [l]) r = deref h r.
Proof. intros Hr. unfold deref. by rewrite lookup_app_l. Qed.

Lemma deref_extend_same h l r :
  r < length h → deref (extend r l h) r = deref h r ++ l.
Proof. intros Hr. unfold extend, deref at 1. by rewrite list_lookup_insert_eq. Qed.

Lemma deref_extend_other h l r r' :
  r ≠ r' → deref (extend r l h) r' = deref h r'.
Proof. intros Hr. unfold extend, deref at 1 3. by rewrite list_lookup_insert_ne. Qed.

Lemma deref_frame h0 h r :
  take (length h0) h = h0 → r < length h0 → deref h r = deref h0 r.
Proof.
  intros Hf Hr. unfold deref.
  rewrite <- (lookup_take_lt h (length h0) r Hr). by rewrite Hf.
Qed.

Lemma truthy_false h o : truthy h o = false → from_option (deref h) [] o = [].
Proof. destruct o as [r|]; simpl; [|done]. by destruct (deref h r). Qed.
End store.

Section ownership.
Variable h0 : list (list FieldValidator).
Implicit Types (h : list (list FieldValidator)) (C : ValidationFunctions).

Lemma owned_length h C : owned h0 (h, C) → length h0 ≤ length h.
Proof.
  intros [Hf _ _]. simpl in Hf.
  rewrite <- Hf at 1. rewrite length_take. lia.
Qed.

Lemma owned_start C : _field_validators C = ∅ → owned h0 (h0, C).
Proof.
  intros HC. split; simpl.
  - by rewrite firstn_all.
  - intros k r. by rewrite HC, lookup_empty.
  - intros k1 k2 r. by rewrite HC, lookup_empty.
Qed.

(** Binding a key to a newly allocated list. *)
Lemma owned_alloc_set h C k l :
  owned h0 (h, C) →
  owned h0 (h ++ [l], set_field k (length h) C)
  ∧ ∀ f, field_seq (h ++ [l], set_field k (length h) C) f
         = if decide (k = f) then l else field_seq (h, C) f.
Proof.
  intros Ho. pose proof (owned_length _ _ Ho) as Hlen.
  destruct Ho as [Hf Hr Hi]. simpl in *. split; [split; simpl|].
  - by rewrite take_app_le.
  - intros k' r. rewrite length_app. simpl.
    rewrite lookup_insert. case_decide.
    + intros [= <-]. lia.
    + intros H'%Hr. lia.
  - intros k1 k2 r. rewrite !lookup_insert.
    repeat case_decide; subst; try done.
    + intros [= <-] H'%Hr. lia.
    + intros H'%Hr [= <-]. lia.
    + apply Hi.
  - intros f. unfold field_seq. simpl. rewrite lookup_insert.
    case_decide; simpl.
    + apply deref_alloc_new.
    + destruct (_field_validators C !! f) as [r|] eqn:E; simpl; [|done].
      apply deref_alloc_old. apply Hr in E. lia.
Qed.

Lemma inherit_item_owned k v h C :
  owned h0 (h, C) → v < length h0 →
  owned h0 (inherit_item k v (h, C))
  ∧ (∀ f, field_seq (inherit_item k v (h, C)) f
          = if decide (k = f) then deref h0 v else field_seq (h, C) f)
  ∧ same_lists C (inherit_item k v (h, C)).2.
Proof.
  intros Ho Hv. unfold inherit_item, alloc.
  destruct (truthy h (_field_validators C !! k)).
  - set (g := from_option (deref h) [] (_field_validators C !! k) ++ deref h v).
    destruct (owned_alloc_set h C k g Ho) as [Ho1 Hs1].
    destruct (owned_alloc_set _ _ k (deref (h ++ [g]) v) Ho1) as [Ho2 Hs2].
    split; [done|]. split; [|done].
    intros f. rewrite Hs2, Hs1. case_decide; [|done].
    apply deref_frame; [apply Ho1 | done].
  - destruct (owned_alloc_set h C k (deref h v) Ho) as [Ho1 Hs1].
    split; [done|]. split; [|done].
    intros f. rewrite Hs1. case_decide; [|done].
    apply deref_frame; [apply Ho | done].
Qed.

(** After [inherit] into a registry without field entries, the registry
    holds its own copies of the parent's sequences. *)
Lemma inherit_owned P C0 :
  closed (h0, P) → _field_validators C0 = ∅ →
  owned h0 (inherit P (h0, C0))
  ∧ (∀ f, field_seq (inherit P (h0, C0)) f = field_seq (h0, P) f)
  ∧ _all_fields_validators (inherit P (h0, C0)).2
    = _all_fields_validators P ++ _all_fields_validators C0
  ∧ root_validators (inherit P (h0, C0)).2
    = root_validators P ++ root_validators C0.
Proof.
  intros HP HC. unfold inherit, closed in *. simpl in HP.
  cut (owned h0 (map_fold inherit_item (h0, C0) (_field_validators P))
       ∧ (∀ f, field_seq (map_fold inherit_item (h0, C0) (_field_validators P)) f
               = field_seq (h0, P) f)
       ∧ same_lists C0 (map_fold inherit_item (h0, C0) (_field_validators P)).2).
  { destruct (map_fold inherit_item (h0, C0) (_field_validators P)) as [h C].
    intros ([Hf Hr Hi] & Hs & Ha & Hro & _). simpl in *.
    split; [by split|]. split; [intros f; apply Hs|]. by rewrite Ha, Hro. }
  unfold field_seq at 2. simpl. revert HP.
  apply (map_fold_weak_ind
    (λ (st : St) (m : gmap string nat),
       map_Forall (λ _ r, r < length h0) m →
       owned h0 st
       ∧ (∀ f, field_seq st f = from_option (deref h0) [] (m !! f))
       ∧ same_lists C0 st.2)).
  - intros _. split; [by apply owned_start|]. split; [|done].
    intros f. unfold field_seq. simpl. by rewrite HC, !lookup_empty.
  - intros k v m [h C] Hk IH Hall.
    apply map_Forall_insert in Hall as [Hv Hall]; [|done].
    destruct (IH Hall) as (Ho & Hs & Hl).
    destruct (inherit_item_owned k v h C Ho Hv) as (Ho' & Hs' & Hl').
    split; [done|]. split.
    + intros f. rewrite Hs', lookup_insert. case_decide; [done|]. apply Hs.
    + destruct Hl as (?&?&?), Hl' as (?&?&?). simpl in *.
      repeat split; congruence.
Qed.

(** One target of a registration: the validator goes to the end of the
    field's sequence, nothing else moves. *)
Lemma register_field_owned validator h C f :
  owned h0 (h, C) →
  owned h0 (register_field validator (h, C) f)
  ∧ (∀ g, field_seq (register_field validator (h, C) f) g
          = field_seq (h, C) g ++ if decide (f = g) then [validator] else [])
  ∧ same_lists C (register_field validator (h, C) f).2.
Proof.
  intros Ho. unfold register_field, alloc.
  destruct (truthy h (_field_validators C !! f)) eqn:Ht.
  - destruct (_field_validators C !! f) as [r|] eqn:Ef; [|done].
    destruct Ho as [Hf Hr Hi]. simpl in *.
    pose proof (Hr _ _ Ef) as Hrf.
    split; [split; simpl|split; [|done]].
    + unfold extend. rewrite take_insert. case_decide; [lia|done].
    + intros k r'. unfold extend. rewrite length_insert. apply Hr.
    + done.
    + intros g. unfold field_seq. simpl.
      destruct (_field_validators C !! g) as [r'|] eqn:Eg; simpl.
      * destruct (decide (r = r')) as [<-|Hne].
        -- rewrite (Hi _ _ _ Ef Eg). rewrite decide_True by done.
           apply deref_extend_same. lia.
        -- rewrite decide_False by congruence.
           rewrite deref_extend_other by done. by rewrite app_nil_r.
      * rewrite decide_False by congruence. done.
  - apply truthy_false in Ht.
    destruct (owned_alloc_set h C f [validator] Ho) as [Ho1 Hs1].
    split; [done|]. split; [|done].
    intros g. rewrite Hs1. case_decide.
    + subst g. unfold field_seq. simpl. by rewrite Ht.
    + by rewrite app_nil_r.
Qed.
End ownership.

Section registration.
Variable h0 : list (list FieldValidator).

Lemma register_fields_owned validator fields st :
  owned h0 st →
  owned h0 (foldl (register_field validator) st fields)
  ∧ (∀ g, field_seq (foldl (register_field validator) st fields) g
          = field_seq st g
            ++ flat_map (λ f, if decide (f = g) then [validator] else []) fields)
  ∧ same_lists st.2 (foldl (register_field validator) st fields).2.
Proof.
  revert st. induction fields as [|f fields IH]; intros [h C] Ho; simpl.
  - split; [done|]. split; [|done]. intros g. by rewrite app_nil_r.
  - destruct (register_field_owned h0 validator h C f Ho) as (Ho1 & Hs1 & Hl1).
    destruct (IH _ Ho1) as (Ho2 & Hs2 & Hl2).
    split; [done|]. split.
    + intros g. rewrite Hs2, Hs1. by rewrite <- app_assoc.
    + destruct Hl1 as (?&?&?), Hl2 as (?&?&?). simpl in *.
      repeat split; congruence.
Qed.

Lemma extract_validator_owned value st :
  owned h0 st →
  owned h0 (extract_validator value st).2
  ∧ (∀ g, field_seq (extract_validator value st).2 g
          = field_seq st g ++ own_validators g [value])
  ∧ same_lists st.2 (extract_validator value st).2.2.
Proof.
  intros Ho. unfold extract_validator, own_validators. simpl.
  destruct (__field_validator__ value) as [[fields validator]|]; simpl.
  - destruct (register_fields_owned validator fields st Ho) as (H1 & H2 & H3).
    split; [done|]. split; [|done]. intros g. rewrite app_nil_r. apply H2.
  - split; [done|]. split; [|done]. intros g. by rewrite app_nil_r.
Qed.

Lemma extract_all_owned regs st :
  owned h0 st →
  owned h0 (extract_all regs st)
  ∧ (∀ g, field_seq (extract_all regs st) g
          = field_seq st g ++ own_validators g regs)
  ∧ same_lists st.2 (extract_all regs st).2.
Proof.
  revert st. induction regs as [|value regs IH]; intros st Ho; simpl.
  - split; [done|]. split; [|done]. intros g. by rewrite app_nil_r.
  - destruct (extract_validator_owned value st Ho) as (Ho1 & Hs1 & Hl1).
    destruct (IH _ Ho1) as (Ho2 & Hs2 & Hl2).
    split; [done|]. split.
    + intros g. unfold extract_all in *. rewrite Hs2, Hs1.
      rewrite <- app_assoc. f_equal.
      unfold own_validators. simpl. by rewrite app_nil_r.
    + destruct Hl1 as (?&?&?), Hl2 as (?&?&?).
      unfold extract_all in *. repeat split; congruence.
Qed.
End registration.

(** What [get_field_validators] returns: the list object it names holds the
    field's sequence followed by the all-fields sequence. *)
Lemma get_field_validators_returns name st :
  closed st →
  deref (get_field_validators name st).2.1 (get_field_validators name st).1
  = field_seq st name ++ _all_fields_validators st.2.
Proof.
  destruct st as [h C]. intros Hc. unfold get_field_validators, field_seq. simpl.
  destruct (_field_validators C !! name) as [r|] eqn:E; simpl.
  - apply deref_extend_same. by apply (Hc name r).
  - rewrite deref_extend_same by (rewrite length_app; simpl; lia).
    by rewrite deref_alloc_new.
Qed.

Lemma owned_closed h0 st : owned h0 st → closed st.
Proof. intros [_ Hr _] k r Hk. apply Hr in Hk. lia. Qed.

(** [get_field_validators] marks the name as used, and only that. *)
Lemma get_field_validators_marks name st :
  _used_validators (get_field_validators name st).2.2
  = {[name]} ∪ _used_validators st.2
  ∧ _field_validators (get_field_validators name st).2.2 = _field_validators st.2
  ∧ _all_fields_validators (get_field_validators name st).2.2
    = _all_fields_validators st.2
  ∧ root_validators (get_field_validators name st).2.2 = root_validators st.2.
Proof.
  destruct st as [h C]. unfold get_field_validators. simpl.
  by destruct (_field_validators C !! name).
Qed.

(** With no all-fields validators, resolving a stored field changes nothing
    in the store. *)
Lemma get_field_validators_pure name st r :
  _all_fields_validators st.2 = [] →
  _field_validators st.2 !! name = Some r →
  (get_field_validators name st).1 = r
  ∧ (get_field_validators name st).2.1 = st.1.
Proof.
  destruct st as [h C]. simpl. intros Ha Hr.
  unfold get_field_validators. simpl. rewrite Hr, Ha. simpl.
  split; [done|]. unfold extend, deref. rewrite app_nil_r.
  destruct (h !! r) as [l|] eqn:E; simpl.
  - by apply list_insert_id.
  - apply list_insert_ge. by apply lookup_ge_None.
Qed.

(** C1.  A registry that inherits from a parent before registering anything
    of its own resolves every field to the parent's validators for that
    field, then its own registrations for it (in registration order), then
    the all-fields validators; its all-fields and root sequences are the
    parent's followed by its own. *)
Theorem inherit_parent_first
    (h0 : list (list FieldValidator)) (P C0 : ValidationFunctions)
    (regs : list Tagged) (f : string) :
  closed (h0, P) →
  _field_validators C0 = ∅ →
  let st := extract_all regs (inherit P (h0, C0)) in
  deref (get_field_validators f st).2.1 (get_field_validators f st).1
  = field_seq (h0, P) f ++ own_validators f regs
    ++ (_all_fields_validators P ++ _all_fields_validators C0)
  ∧ _all_fields_validators st.2
    = _all_fields_validators P ++ _all_fields_validators C0
  ∧ root_validators st.2 = root_validators P ++ root_validators C0.
Proof.
  intros HP HC st.
  destruct (inherit_owned h0 P C0 HP HC) as (Ho1 & Hs1 & Ha1 & Hr1).
  destruct (extract_all_owned h0 regs _ Ho1) as (Ho2 & Hs2 & Ha & Hr & _).
  fold st in Ho2, Hs2, Ha, Hr.
  rewrite get_field_validators_returns by by eapply owned_closed.
  rewrite Hs2, Hs1, Ha, Hr, Ha1, Hr1. by rewrite <- app_assoc.
Qed.

(** The parent's lists are untouched by the child's inheritance and
    registrations. *)
Lemma inherit_leaves_parent
    (h0 : list (list FieldValidator)) (P C0 : ValidationFunctions)
    (regs : list Tagged) (f : string) :
  closed (h0, P) →
  _field_validators C0 = ∅ →
  field_seq ((extract_all regs (inherit P (h0, C0))).1, P) f = field_seq (h0, P) f.
Proof.
  intros HP HC.
  destruct (inherit_owned h0 P C0 HP HC) as (Ho1 & _).
  destruct (extract_all_owned h0 regs _ Ho1) as ([Hf _ _] & _).
  unfold field_seq. simpl.
  destruct (_field_validators P !! f) as [r|] eqn:E; simpl; [|done].
  apply deref_frame; [done|]. by apply (HP f r).
Qed.

(** ** Resolution and the stored sequences *)

(** Resolving a stored field extends the stored sequence itself by the
    all-fields validators. *)
Lemma get_field_validators_grows name st r :
  closed st →
  _field_validators st.2 !! name = Some r →
  field_seq (get_field_validators name st).2 name
  = field_seq st name ++ _all_fields_validators st.2.
Proof.
  destruct st as [h C]. simpl. intros Hc Hr.
  unfold get_field_validators, field_seq. simpl. rewrite Hr. simpl.
  rewrite Hr. simpl. apply deref_extend_same. by apply (Hc name r).
Qed.

(** C2 (on the code).  With a validator stored for [x] and one all-fields
    validator, the first resolution of [x] returns two validators and leaves
    the stored sequence of [x] one longer; the second resolution returns
    three, and the list handed out by the first call has grown as well. *)
Theorem get_field_validators_twice :
  let st0 := (shared_store, shared_registry) in
  let res1 := get_field_validators "x" st0 in
  let res2 := get_field_validators "x" res1.2 in
  field_seq st0 "x" = [mk_validator "check_x" 1 true]
  ∧ deref res1.2.1 res1.1
    = [mk_validator "check_x" 1 true; mk_validator "check_all" 2 true]
  ∧ field_seq res1.2 "x"
    = [mk_validator "check_x" 1 true; mk_validator "check_all" 2 true]
  ∧ deref res2.2.1 res2.1
    = [mk_validator "check_x" 1 true; mk_validator "check_all" 2 true;
       mk_validator "check_all" 2 true]
  ∧ deref res2.2.1 res1.1 = deref res2.2.1 res2.1.
Proof. vm_compute. repeat split. Qed.

(** ** Root validators *)

(** Without a field tag, [extract_validator] registers nothing and answers
    [False], whatever the root tag. *)
Lemma extract_validator_no_field_tag value st :
  __field_validator__ value = None → extract_validator value st = (false, st).
Proof. intros H. unfold extract_validator. by rewrite H. Qed.

(** C3 (on the code).  A function tagged as a root validator only is not
    registered: the root sequence stays empty and the answer is [False]. *)
Theorem extract_validator_root_tagged :
  extract_validator root_tagged ([], __init__) = (false, ([], __init__))
  ∧ root_validators (extract_validator root_tagged ([], __init__)).2.2 = [].
Proof. split; reflexivity. Qed.

(** ** Unused validators *)

Lemma string_app_assoc (a b c : string) : (a +:+ b) +:+ c = a +:+ (b +:+ c).
Proof.
  induction a as [|x a IH]; [done|].
  change (String x ((a +:+ b) +:+ c) = String x (a +:+ (b +:+ c))).
  by rewrite IH.
Qed.

Lemma string_app_empty_r (a : string) : a +:+ EmptyString = a.
Proof.
  induction a as [|x a IH]; [done|].
  change (String x (a +:+ EmptyString) = String x a). by rewrite IH.
Qed.

(** Every element of a joined list occurs in the joined string. *)
Lemma concat_occurs (sep x : string) (l : list string) :
  x ∈ l → ∃ pre post, String.concat sep l = pre +:+ x +:+ post.
Proof.
  induction l as [|y l IH]; [by intros ?%elem_of_nil|].
  intros [->|Hx]%elem_of_cons.
  - destruct l as [|z l]; simpl.
    + exists EmptyString, EmptyString. by rewrite string_app_empty_r.
    + by exists EmptyString, (sep +:+ String.concat sep (z :: l)).
  - destruct (IH Hx) as (pre & post & E).
    destruct l as [|z l]; [by apply elem_of_nil in Hx|].
    exists (y +:+ sep +:+ pre), post.
    change (String.concat sep (y :: z :: l))
      with (y +:+ sep +:+ String.concat sep (z :: l)).
    rewrite E. by rewrite !string_app_assoc.
Qed.

Lemma elem_of_unused_validators st n :
  n ∈ unused_validators st ↔ ∃ v, offending st v ∧ n = __name__ (function v).
Proof.
  destruct st as [h C]. unfold unused_validators, offending. simpl.
  rewrite elem_of_list_to_set, list_elem_of_bind. split.
  - intros ([k r] & Hn & Hkv). simpl in *.
    apply list_elem_of_fmap in Hn as (v & -> & Hv).
    apply list_elem_of_filter in Hv as [Hc Hv].
    apply list_elem_of_filter in Hkv as [Hu Hkv].
    apply elem_of_map_to_list in Hkv. exists v. split; [|done].
    by exists k, r.
  - intros (v & (k & r & Hk & Hu & Hv & Hc) & ->).
    exists (k, r). simpl. split.
    + apply list_elem_of_fmap. exists v. split; [done|].
      by apply list_elem_of_filter.
    + apply list_elem_of_filter. split; [done|]. by apply elem_of_map_to_list.
Qed.

(** [check_for_unused] raises exactly on an offending entry. *)
Lemma check_for_unused_raises (st : St) :
  (∃ e, check_for_unused st = Raise e) ↔ ∃ v, offending st v.
Proof.
  unfold check_for_unused. case_decide as Hu; split.
  - by intros [e ?].
  - intros [v Hv]. exfalso.
    assert (__name__ (function v) ∈ unused_validators st) as Hin.
    { apply elem_of_unused_validators. by exists v. }
    rewrite Hu in Hin. by apply not_elem_of_empty in Hin.
  - intros _. apply set_choose_L in Hu as [n Hn].
    apply elem_of_unused_validators in Hn as (v & Hv & _). by exists v.
  - intros _. by eexists.
Qed.

(** A validator whose field-existence check is off never makes the check
    fail: a registry all of whose unresolved entries have it off passes. *)
Lemma check_for_unused_unchecked (st : St) :
  (∀ f r v, _field_validators st.2 !! f = Some r →
            f ∉ _used_validators st.2 → v ∈ deref st.1 r →
            check_fields v = false) →
  check_for_unused st = Ok tt.
Proof.
  intros H. destruct (check_for_unused st) as [[]|e] eqn:E; [done|].
  assert (∃ e, check_for_unused st = Raise e) as He by by exists e.
  apply check_for_unused_raises in He as (v & f & r & Hf & Hu & Hv & Hc).
  by rewrite (H f r v Hf Hu Hv) in Hc.
Qed.

(** C6.  [check_for_unused] raises exactly when some key that was never
    resolved holds an entry whose field-existence check is on; the error is
    a [ConfigError] whose message contains the function name of every such
    entry; root validators play no part. *)
Theorem check_for_unused_spec (st : St) :
  ((∃ e, check_for_unused st = Raise e) ↔ ∃ v, offending st v)
  ∧ (∀ e, check_for_unused st = Raise e →
       ∃ msg, e = ConfigError msg
              ∧ ∀ v, offending st v →
                  ∃ pre post, msg = pre +:+ __name__ (function v) +:+ post)
  ∧ (∀ roots, check_for_unused (st.1, with_roots roots st.2)
              = check_for_unused st).
Proof.
  split; [apply check_for_unused_raises|split].
  - intros e. unfold check_for_unused. case_decide as Hu; [done|].
    intros [= <-]. eexists. split; [done|]. intros v Hv.
    assert (__name__ (function v) ∈ elements (unused_validators st)) as Hin.
    { apply elem_of_elements, elem_of_unused_validators. by exists v. }
    destruct (concat_occurs ", " _ _ Hin) as (pre & post & E).
    unfold unused_message. rewrite E.
    exists ("Validators defined with incorrect fields: " +:+ pre).
    eexists. rewrite !string_app_assoc. reflexivity.
  - intros roots. by destruct st.
Qed.

(** * Properties of model instances *)

(** ** Dicts *)

Section dict_facts.
Import Model.
Context {V : Type}.
Implicit Types (d items : list (string * V)) (k : string) (v : V).

Lemma dict_get_set k k' v d :
  dict_get k (dict_set k' v d) = if decide (k = k') then Some v else dict_get k d.
Proof.
  induction d as [|[k0 v0] d IH]; simpl.
  - repeat case_decide; congruence.
  - repeat (case_decide; simpl; subst); try congruence.
Qed.

Lemma dict_get_None k d : dict_get k d = None ↔ k ∉ d.*1.
Proof.
  induction d as [|[k0 v0] d IH]; simpl.
  - split; [intros _; apply not_elem_of_nil | done].
  - rewrite not_elem_of_cons. case_decide; subst.
    + split; [done|]. by intros [? _].
    + rewrite IH. tauto.
Qed.

Lemma dict_get_Some k v d : dict_get k d = Some v → (k, v) ∈ d.
Proof.
  induction d as [|[k0 v0] d IH]; simpl; [done|].
  case_decide; subst.
  - intros [= ->]. apply elem_of_cons. by left.
  - intros H'. apply elem_of_cons. right. by apply IH.
Qed.

Lemma dict_get_elem k v d : NoDup d.*1 → (k, v) ∈ d → dict_get k d = Some v.
Proof.
  induction d as [|[k0 v0] d IH]; simpl.
  - by intros _ ?%elem_of_nil.
  - intros [Hk Hd]%NoDup_cons [[= -> ->]|Hin]%elem_of_cons.
    + by rewrite decide_True.
    + rewrite decide_False; [by apply IH|].
      intros ->. apply Hk. apply list_elem_of_fmap. by exists (k0, v).
Qed.

Lemma dict_in_keys k d : dict_in k d = true ↔ k ∈ dict_keys d.
Proof.
  unfold dict_in, dict_keys. rewrite elem_of_list_to_set.
  destruct (dict_get k d) eqn:E.
  - split; [|done]. intros _.
    destruct (decide (k ∈ d.*1)) as [|Hn]; [done|].
    apply dict_get_None in Hn. congruence.
  - split; [done|]. intros Hin. by apply dict_get_None in E.
Qed.

(** Assigning a key that is not there appends the item. *)
Lemma dict_set_new k v d : dict_get k d = None → dict_set k v d = d ++ [(k, v)].
Proof.
  induction d as [|[k0 v0] d IH]; simpl; [done|].
  case_decide; [done|]. intros H'. by rewrite IH.
Qed.

(** After [update], the last item given for a key wins. *)
Lemma dict_get_update k d items :
  dict_get k (dict_update d items)
  = match dict_get k (reverse items) with
    | Some v => Some v
    | None => dict_get k d
    end.
Proof.
  unfold dict_update. revert d.
  induction items as [|[k0 v0] items IH]; intros d; simpl; [done|].
  rewrite IH, reverse_cons, dict_get_set. simpl.
  assert (∀ d1 d2 : list (string * V),
            dict_get k (d1 ++ d2)
            = match dict_get k d1 with
              | Some v => Some v
              | None => dict_get k d2
              end) as Happ.
  { intros d1 d2. induction d1 as [|[k1 v1] d1 IH1]; simpl; [done|].
    by case_decide. }
  rewrite Happ. simpl. destruct (dict_get k (reverse items)); [done|].
  by case_decide.
Qed.

Lemma dict_get_reverse k d : NoDup d.*1 → dict_get k (reverse d) = dict_get k d.
Proof.
  intros Hd. destruct (dict_get k d) as [v|] eqn:E.
  - apply dict_get_elem.
    + by rewrite fmap_reverse, reverse_Permutation.
    + apply elem_of_reverse. by apply dict_get_Some.
  - apply dict_get_None. rewrite fmap_reverse, elem_of_reverse.
    by apply dict_get_None.
Qed.

(** A list of items with distinct keys is the dict it builds. *)
Lemma dict_update_distinct d items :
  NoDup (d ++ items).*1 → dict_update d items = d ++ items.
Proof.
  unfold dict_update. revert d.
  induction items as [|[k0 v0] items IH]; intros d Hd; simpl.
  - by rewrite app_nil_r.
  - assert (dict_get k0 d = None) as Hk.
    { apply dict_get_None. rewrite fmap_app in Hd.
      apply NoDup_app in Hd as (_ & Hd & _). intros Hin.
      apply (Hd k0 Hin). simpl. apply elem_of_cons. by left. }
    rewrite (dict_set_new _ _ _ Hk).
    rewrite IH; [by rewrite <- app_assoc|].
    by rewrite <- app_assoc.
Qed.

Lemma dict_of_distinct items : NoDup items.*1 → dict_of items = items.
Proof. intros H. unfold dict_of. by rewrite dict_update_distinct. Qed.

Lemma dict_set_fst k v d x : x ∈ (dict_set k v d).*1 ↔ x = k ∨ x ∈ d.*1.
Proof.
  induction d as [|[k0 v0] d IH]; simpl.
  - rewrite elem_of_cons. by rewrite !elem_of_nil.
  - case_decide; simpl; subst; rewrite !elem_of_cons; [tauto|].
    rewrite IH. tauto.
Qed.

Lemma dict_set_keys k v d :
  dict_keys (dict_set k v d) = {[k]} ∪ dict_keys d.
Proof.
  apply set_eq. intros x. unfold dict_keys.
  rewrite elem_of_union, elem_of_singleton, !elem_of_list_to_set.
  apply dict_set_fst.
Qed.

Lemma dict_update_keys d items :
  dict_keys (dict_update d items) = dict_keys d ∪ dict_keys items.
Proof.
  unfold dict_update. revert d.
  induction items as [|[k0 v0] items IH]; intros d; simpl.
  - unfold dict_keys at 3. simpl. set_solver.
  - rewrite IH, dict_set_keys. unfold dict_keys at 4. simpl.
    fold (dict_keys items). set_solver.
Qed.

Lemma dict_set_distinct k v d : NoDup d.*1 → NoDup (dict_set k v d).*1.
Proof.
  induction d as [|[k0 v0] d IH]; simpl.
  - intros _. apply NoDup_singleton.
  - intros [Hk Hd]%NoDup_cons. case_decide; simpl; subst.
    + by apply NoDup_cons.
    + apply NoDup_cons. split; [|by apply IH].
      rewrite dict_set_fst. intros [?|?]; [congruence|done].
Qed.
End dict_facts.

(** ** Construction from trusted data *)

Section construct_facts.
Import Model.
Context (classes : string → ModelClass).
Implicit Types (values : list (string * Value)) (k : string).

Lemma construct_field_get values acc name field k :
  dict_get k (construct_field values acc (name, field))
  = if decide (k = name)
    then match field_value values name field with
         | Some v => Some v
         | None => dict_get k acc
         end
    else dict_get k acc.
Proof.
  unfold construct_field, field_value.
  destruct (if alt_alias field then dict_get (alias field) values else None).
  { rewrite dict_get_set. by case_decide. }
  destruct (dict_get name values).
  { rewrite dict_get_set. by case_decide. }
  destruct (required field); simpl.
  - by case_decide.
  - rewrite dict_get_set. by case_decide.
Qed.

Lemma construct_fields_get values fields acc k :
  NoDup fields.*1 →
  dict_get k (foldl (construct_field values) acc fields)
  = match dict_get k fields with
    | Some field =>
        match field_value values k field with
        | Some v => Some v
        | None => dict_get k acc
        end
    | None => dict_get k acc
    end.
Proof.
  revert acc. induction fields as [|[k0 f0] fields IH]; intros acc Hd; [done|].
  apply NoDup_cons in Hd as [Hk Hd]. cbn [foldl dict_get].
  rewrite (IH _ Hd), construct_field_get.
  case_decide; subst.
  - apply dict_get_None in Hk. simpl in Hk. by rewrite Hk.
  - done.
Qed.

Lemma dict_in_elem {V : Type} (d : list (string * V)) kv :
  kv ∈ d → dict_in kv.1 d = true.
Proof.
  intros Hin. apply dict_in_keys. unfold dict_keys.
  apply elem_of_list_to_set, list_elem_of_fmap. by exists kv.
Qed.

(** A loop of [object_setattr] calls over items named after private
    attributes of the class: only the slots change, as by one update with
    the items that are set. *)
Lemma foldl_object_setattr {A : Type} (g : string * A → option Value)
    (l : list (string * A)) (m : Instance) :
  (∀ kv, kv ∈ l →
         dict_in kv.1 (__private_attributes__ (classes (cls m))) = true) →
  let r := foldl (λ m kv, match g kv with
                          | Some v => object_setattr classes m kv.1 v
                          | None => m
                          end) m l in
  cls r = cls m ∧ __dict__ r = __dict__ m
  ∧ __fields_set__ r = __fields_set__ m
  ∧ slots r = dict_update (slots m)
                (omap (λ kv, (λ v, (kv.1, v)) <$> g kv) l).
Proof.
  revert m. induction l as [|kv l IH]; intros m Hprivate; [done|].
  cbn [foldl omap list_omap].
  assert (∀ kv', kv' ∈ l →
            dict_in kv'.1 (__private_attributes__ (classes (cls m))) = true)
    as Hrest by (intros kv' Hin; apply Hprivate, elem_of_cons; by right).
  destruct (g kv) as [v|]; simpl; [|by apply IH].
  assert (object_setattr classes m kv.1 v
          = {| cls := cls m; __dict__ := __dict__ m;
               __fields_set__ := __fields_set__ m;
               slots := dict_set kv.1 v (slots m) |}) as ->.
  { unfold object_setattr.
    by rewrite (Hprivate kv) by (apply elem_of_cons; by left). }
  match goal with
  | |- context [foldl _ ?m' l] =>
      destruct (IH m' Hrest) as (-> & -> & -> & ->)
  end.
  done.
Qed.

Lemma _init_private_attributes_frame (m : Instance) :
  cls (_init_private_attributes classes m) = cls m
  ∧ __dict__ (_init_private_attributes classes m) = __dict__ m
  ∧ __fields_set__ (_init_private_attributes classes m) = __fields_set__ m.
Proof.
  unfold _init_private_attributes.
  destruct (foldl_object_setattr (λ kv : string * option Value, kv.2)
              (__private_attributes__ (classes (cls m))) m)
    as (Hc & Hd & Hf & _); [|done].
  intros kv Hin. by apply dict_in_elem.
Qed.

(** The values of a constructed instance, key by key. *)
Lemma construct_values cls fs values k :
  NoDup (__fields__ (classes cls)).*1 → NoDup values.*1 →
  dict_get k (__dict__ (construct classes cls fs values))
  = match dict_get k values with
    | Some v => Some v
    | None => dict_get k (__fields__ (classes cls)) ≫= field_value values k
    end.
Proof.
  intros Hf Hv. unfold construct.
  destruct (_init_private_attributes_frame
    {| cls := cls;
       __dict__ := dict_update
         (foldl (construct_field values) [] (__fields__ (classes cls))) values;
       __fields_set__ := match fs with None => dict_keys values | Some s => s end;
       slots := [] |}) as (_ & -> & _). simpl.
  rewrite dict_get_update, (dict_get_reverse _ _ Hv).
  destruct (dict_get k values); [done|].
  rewrite (construct_fields_get _ _ _ _ Hf). simpl.
  destruct (dict_get k (__fields__ (classes cls))) as [field|]; simpl; [|done].
  by destruct (field_value values k field).
Qed.

Lemma construct_fields_set cls values :
  __fields_set__ (construct classes cls None values) = dict_keys values.
Proof.
  unfold construct.
  by destruct (_init_private_attributes_frame
    {| cls := cls;
       __dict__ := dict_update
         (foldl (construct_field values) [] (__fields__ (classes cls))) values;
       __fields_set__ := dict_keys values;
       slots := [] |}) as (_ & _ & ->).
Qed.


End construct_facts.

(** ** Assignment *)

Section setattr_facts.
Import Model.
Context (classes : string → ModelClass) (DUNDER_ATTRIBUTES : gset string).

(** A failed assignment leaves the instance as it was. *)
Lemma setattr_atomic self name value e :
  (__setattr__ classes DUNDER_ATTRIBUTES self name value).1 = Raise e →
  (__setattr__ classes DUNDER_ATTRIBUTES self name value).2 = self.
Proof.
  unfold __setattr__.
  repeat match goal with
         | |- context [if ?b then _ else _] => destruct b
         | |- context [match ?o with Some _ => _ | None => _ end] => destruct o
         | |- context [match ?p with (_, _) => _ end] => destruct p
         end; simpl; done.
Qed.

(** Assigning a final declared field always fails with a [TypeError]. *)
Lemma setattr_final self name value field :
  dict_in name (__private_attributes__ (classes (cls self))) = false →
  name ∉ DUNDER_ATTRIBUTES →
  dict_get name (__fields__ (classes (cls self))) = Some field →
  final field = true →
  ∃ msg, __setattr__ classes DUNDER_ATTRIBUTES self name value
         = (Raise (TypeError msg), self).
Proof.
  intros Hp Hd Hf Hfinal. unfold __setattr__.
  rewrite Hp, (bool_decide_eq_false_2 _ Hd). simpl.
  unfold dict_in at 1. rewrite Hf. simpl. rewrite andb_false_r.
  destruct (negb (allow_mutation (__config__ (classes (cls self))))
            || frozen (__config__ (classes (cls self)))); [by eexists|].
  rewrite Hfinal. by eexists.
Qed.

End setattr_facts.

(** ** Projection *)

(** Induction on values, through the lists and dicts they hold. *)
Section Value_induction.
Import Model.
Variable P : Value → Prop.
Hypothesis HNone : P VNone.
Hypothesis HBool : ∀ b, P (VBool b).
Hypothesis HInt : ∀ z, P (VInt z).
Hypothesis HStr : ∀ s, P (VStr s).
Hypothesis HEnum : ∀ e m v, P v → P (VEnum e m v).
Hypothesis HList : ∀ l, Forall P l → P (VList l).
Hypothesis HTuple : ∀ l, Forall P l → P (VTuple l).
Hypothesis HDict : ∀ d, Forall (λ kv, P kv.2) d → P (VDict d).
Hypothesis HModel : ∀ m, Forall (λ kv, P kv.2) (__dict__ m) → P (VModel m).

Lemma Value_nested_ind (v : Value) : P v.
Proof.
  revert v. fix IH 1. intros [| | | |e m v|l|l|d|m].
  - exact HNone.
  - apply HBool.
  - apply HInt.
  - apply HStr.
  - apply HEnum, IH.
  - apply HList. induction l as [|x l IHl]; constructor; [apply IH|exact IHl].
  - apply HTuple. induction l as [|x l IHl]; constructor; [apply IH|exact IHl].
  - apply HDict. induction d as [|kv d IHd]; constructor; [apply IH|exact IHd].
  - apply HModel. destruct m as [c d fs sl]. simpl.
    induction d as [|kv d IHd]; constructor; [apply IH|exact IHd].
Qed.
End Value_induction.

Section traverse_facts.
Import Model.
Context {A B : Type} (f : A → Result B).

Lemma mapM_Ok l ys :
  mapM f l = Ok ys → Forall2 (λ x y, f x = Ok y) l ys.
Proof.
  revert ys. induction l as [|x l IH]; intros ys; simpl.
  - intros [= <-]. constructor.
  - destruct (f x) as [y|e] eqn:Ex; simpl; [|done].
    destruct (mapM f l) as [ys'|e] eqn:El; simpl; [|done].
    intros [= <-]. constructor; [done|]. by apply IH.
Qed.

Lemma mapM_total l :
  Forall (λ x, ∃ y, f x = Ok y) l → ∃ ys, mapM f l = Ok ys.
Proof.
  induction 1 as [|x l [y Hy] _ [ys Hys]]; simpl; [by eexists|].
  rewrite Hy. simpl. rewrite Hys. simpl. by eexists.
Qed.

Lemma mapM_Raise l e : mapM f l = Raise e → ∃ x, x ∈ l ∧ f x = Raise e.
Proof.
  induction l as [|x l IH]; simpl; [done|].
  destruct (f x) as [y|e'] eqn:Ex; simpl.
  - destruct (mapM f l) as [ys|e'] eqn:El; simpl; [done|].
    intros [= <-]. destruct (IH eq_refl) as (x' & Hin & Hx').
    exists x'. split; [|done]. apply elem_of_cons. by right.
  - intros [= <-]. exists x. split; [|done]. apply elem_of_cons. by left.
Qed.

(** An element that raises makes the whole traversal raise. *)
Lemma mapM_raises l x e :
  x ∈ l → f x = Raise e → ∃ e', mapM f l = Raise e'.
Proof.
  induction l as [|x0 l IH]; [by intros ?%elem_of_nil|].
  intros [->|Hin]%elem_of_cons Hx; simpl.
  - rewrite Hx. by eexists.
  - destruct (f x0) as [y|e0]; simpl; [|by eexists].
    destruct (IH Hin Hx) as [e' ->]. by eexists.
Qed.
End traverse_facts.

Lemma mapM_id {A : Type} (f : A → Result A) (l : list A) :
  Forall (λ x, f x = Ok x) l → Model.mapM f l = Ok l.
Proof.
  induction 1 as [|x l Hx _ IH]; simpl; [done|].
  rewrite Hx. simpl. by rewrite IH.
Qed.

Section projection_facts.
Import Model.
Context (classes : string → ModelClass) (ROOT_KEY : string)
        (ValueItems_is_true : Value → bool).

Local Abbreviation get_value := (_get_value classes ROOT_KEY ValueItems_is_true).
Local Abbreviation iter_over := (iter_with classes ValueItems_is_true).
Local Abbreviation item_over := (iter_item classes).

Implicit Types (self : Instance) (o : Options) (v : Value).

(** With [to_dict], [_iter] goes through the items. *)
Lemma iter_with_to_dict gv self o :
  to_dict o = true →
  iter_over gv self o
  = yielded ← mapM (item_over gv self o
                      (_calculate_keys ValueItems_is_true self None None
                                       (exclude_unset o) None))
                   (__dict__ self);
    Ok (concat yielded).
Proof. intros H. unfold iter_with. by rewrite H, andb_false_r. Qed.

(** *** Keys under [exclude_unset] *)

Lemma _calculate_keys_unset self include exclude update keys :
  _calculate_keys ValueItems_is_true self include exclude true update
  = Some keys →
  keys ⊆ __fields_set__ self.
Proof.
  unfold _calculate_keys.
  destruct include as [include|], exclude as [[|? exclude]|],
           update as [[|? update]|]; intros [= <-]; set_solver.
Qed.

Lemma iter_item_keys gv self o allowed_keys item ys k :
  item_over gv self o allowed_keys item = Ok ys →
  by_alias o = false →
  k ∈ ys.*1 →
  k = item.1 ∧ ∀ keys, allowed_keys = Some keys → k ∈ keys.
Proof.
  destruct item as [field_key v]. unfold iter_item. intros H Halias.
  destruct (from_option (λ keys, bool_decide (field_key ∉ keys)) false
                        allowed_keys) eqn:Hallowed; simpl in H.
  { injection H as <-. by intros ?%elem_of_nil. }
  destruct (exclude_none o && is_none v); simpl in H.
  { injection H as <-. by intros ?%elem_of_nil. }
  destruct (if exclude_defaults o then _ else _) as [[]|e]; simpl in H;
    [injection H as <-; by intros ?%elem_of_nil| |done].
  rewrite Halias in H.
  destruct (if to_dict o then _ else _) as [v'|e]; simpl in H; [|done].
  injection H as <-. simpl. intros ->%list_elem_of_singleton.
  split; [done|]. intros keys ->. simpl in Hallowed.
  apply bool_decide_eq_false in Hallowed.
  by destruct (decide (field_key ∈ keys)).
Qed.

Lemma iter_with_keys gv self o items k :
  iter_over gv self o = Ok items →
  exclude_unset o = true → by_alias o = false →
  k ∈ items.*1 → k ∈ __fields_set__ self.
Proof.
  unfold iter_with. intros H Hunset Halias. rewrite Hunset in H.
  simpl in H.
  destruct (mapM _ (__dict__ self)) as [yielded|e] eqn:E; simpl in H; [|done].
  injection H as <-. apply mapM_Ok in E.
  intros (kv & -> & Hkv)%list_elem_of_fmap.
  apply list_elem_of_In, in_concat in Hkv as (ys & Hys & Hkv).
  apply list_elem_of_In in Hys, Hkv.
  apply list_elem_of_lookup in Hys as [i Hi].
  destruct (Forall2_lookup_r _ _ _ _ _ E Hi) as (item & _ & Hitem).
  eapply (iter_item_keys _ _ _ _ _ _ kv.1 Hitem Halias); [|done].
  apply list_elem_of_fmap. by exists kv.
Qed.

(** *** Projection without [exclude_defaults] always returns *)

Lemma iter_item_total gv self o allowed_keys item :
  exclude_defaults o = false →
  (∃ w, gv (cls self) o item.2 = Ok w) →
  ∃ ys, item_over gv self o allowed_keys item = Ok ys.
Proof.
  destruct item as [field_key v]. intros Hd [w Hw]. unfold iter_item.
  rewrite Hd. simpl in *.
  destruct (_ || _); [by eexists|]. simpl.
  destruct (to_dict o); [rewrite Hw|]; by eexists.
Qed.

Lemma iter_with_total gv self o :
  exclude_defaults o = false →
  Forall (λ kv, ∃ w, gv (cls self) o kv.2 = Ok w) (__dict__ self) →
  ∃ items, iter_over gv self o = Ok items.
Proof.
  intros Hd Hall. unfold iter_with.
  destruct (_ && _); [by eexists|].
  destruct (mapM_total (item_over gv self o
              (_calculate_keys ValueItems_is_true self None None
                               (exclude_unset o) None))
            (__dict__ self)) as [ys Hys].
  { eapply Forall_impl; [exact Hall|]. intros kv Hkv.
    by apply iter_item_total. }
  rewrite Hys. by eexists.
Qed.

Lemma _get_value_total v :
  ∀ cls o, exclude_defaults o = false → ∃ w, get_value cls o v = Ok w.
Proof.
  induction v as [| | | |e m v IH|l IH|l IH|d IH|m IH]
    using Value_nested_ind; intros cls o Hd; simpl; try by eexists.
  - destruct (use_enum_values _); by eexists.
  - destruct (mapM_total (get_value cls o) l) as [ws ->]; [|by eexists].
    eapply Forall_impl; [exact IH|]. intros x Hx. by apply Hx.
  - destruct (mapM_total (get_value cls o) l) as [ws ->]; [|by eexists].
    eapply Forall_impl; [exact IH|]. intros x Hx. by apply Hx.
  - destruct (mapM_total
      (λ kv : string * Value, v_ ← get_value cls o kv.2; Ok (kv.1, v_)) d)
      as [ws ->]; [|by eexists].
    eapply Forall_impl; [exact IH|]. intros kv Hkv. simpl in Hkv.
    destruct (Hkv cls o Hd) as [w ->]. by eexists.
  - destruct (to_dict o).
    + unfold dict_with.
      destruct (iter_with_total get_value m
        {| to_dict := true; by_alias := by_alias o;
           exclude_unset := exclude_unset o;
           exclude_defaults := exclude_defaults o;
           exclude_none := exclude_none o |}) as [items ->]; [done| |].
      * eapply Forall_impl; [exact IH|]. intros kv Hkv. by apply Hkv.
      * simpl. destruct (dict_get ROOT_KEY (dict_of items)); by eexists.
    + unfold copy_with, iter_with. simpl. by eexists.
Qed.

Lemma dict_total self by_alias skip_defaults exclude_unset exclude_none :
  ∃ items, dict classes ROOT_KEY ValueItems_is_true self by_alias
             skip_defaults exclude_unset false exclude_none = Ok items.
Proof.
  unfold dict, dict_with.
  match goal with
  | |- context [iter_with _ _ _ _ ?o] =>
      destruct (iter_with_total get_value self o) as [items ->]
  end; [done| |by eexists].
  apply Forall_forall. intros kv _. by apply _get_value_total.
Qed.
End projection_facts.

Lemma forallb_Forall {A : Type} (f : A → bool) (l : list A) :
  forallb f l = true → Forall (λ x, f x = true) l.
Proof.
  induction l as [|x l IH]; simpl; [constructor|].
  intros [Hx Hl]%andb_prop. constructor; [done|]. by apply IH.
Qed.

Lemma concat_singletons {A : Type} (l : list A) :
  concat ((λ x, [x]) <$> l) = l.
Proof. induction l as [|x l IH]; [done|]. simpl. f_equal. exact IH. Qed.

Lemma mapM_fmap {A B : Type} (f : A → Result B) (g : A → B) (l : list A) :
  Forall (λ x, f x = Ok (g x)) l → Model.mapM f l = Ok (g <$> l).
Proof.
  induction 1 as [|x l Hx _ IH]; simpl; [done|].
  rewrite Hx. simpl. by rewrite IH.
Qed.

Section projection_claims.
Import Model.
Context (classes : string → ModelClass) (DUNDER_ATTRIBUTES : gset string)
        (ROOT_KEY : string) (ValueItems_is_true : Value → bool).

Local Abbreviation get_value := (_get_value classes ROOT_KEY ValueItems_is_true).
Local Abbreviation item_over := (iter_item classes).
Local Abbreviation project := (dict classes ROOT_KEY ValueItems_is_true).

Implicit Types (self x : Instance) (o : Options) (v : Value).

Lemma dict_of_keys_subset (items : list (string * Value)) k :
  k ∈ (dict_of items).*1 → k ∈ items.*1.
Proof.
  intros Hk.
  assert (k ∈ dict_keys (dict_of items)) as Hin
    by by apply elem_of_list_to_set.
  unfold dict_of in Hin. rewrite dict_update_keys in Hin.
  apply elem_of_union in Hin as [Hin|Hin].
  - by apply elem_of_list_to_set, elem_of_nil in Hin.
  - by apply elem_of_list_to_set in Hin.
Qed.


(** *** [exclude_defaults] *)

Lemma iter_item_raises gv self o allowed_keys item e :
  item_over gv self o allowed_keys item = Raise e →
  e = NameError "_missing" ∨ gv (cls self) o item.2 = Raise e.
Proof.
  destruct item as [field_key v]. unfold iter_item. simpl.
  destruct (_ || _); [done|].
  destruct (exclude_defaults o); simpl.
  - destruct (negb _); simpl; [intros [= <-]; by left|].
    destruct (to_dict o); [|done].
    destruct (gv (cls self) o v); simpl; [done|]. intros [= <-]. by right.
  - destruct (to_dict o); [|done].
    destruct (gv (cls self) o v); simpl; [done|]. intros [= <-]. by right.
Qed.

(** The only exception a projection raises is the [NameError]. *)
Lemma _get_value_raises v :
  ∀ cls o e, get_value cls o v = Raise e → e = NameError "_missing".
Proof.
  induction v as [| | | |en m v IH|l IH|l IH|d IH|m IH]
    using Value_nested_ind; intros cls o e; simpl; try done.
  - by destruct (use_enum_values _).
  - destruct (mapM (get_value cls o) l) as [ws|e'] eqn:E; simpl; [done|].
    intros [= <-]. apply mapM_Raise in E as (x & Hx & Hr).
    by apply (proj1 (Forall_forall _ _) IH x Hx cls o).
  - destruct (mapM (get_value cls o) l) as [ws|e'] eqn:E; simpl; [done|].
    intros [= <-]. apply mapM_Raise in E as (x & Hx & Hr).
    by apply (proj1 (Forall_forall _ _) IH x Hx cls o).
  - destruct (mapM _ d) as [ws|e'] eqn:E; simpl; [done|].
    intros [= <-]. apply mapM_Raise in E as (kv & Hkv & Hr).
    destruct (get_value cls o kv.2) as [w|e''] eqn:Ekv; simpl in Hr; [done|].
    injection Hr as <-.
    by apply (proj1 (Forall_forall _ _) IH kv Hkv cls o).
  - destruct (to_dict o).
    + unfold dict_with. rewrite iter_with_to_dict by done.
      destruct (mapM _ (__dict__ m)) as [ws|e'] eqn:E; simpl.
      { by destruct (dict_get ROOT_KEY (dict_of (concat ws))). }
      intros [= <-]. apply mapM_Raise in E as (kv & Hkv & Hr).
      apply iter_item_raises in Hr as [->|Hr]; [done|].
      by apply (proj1 (Forall_forall _ _) IH kv Hkv) in Hr.
    + unfold copy_with, iter_with. simpl. done.
Qed.

(** With [exclude_defaults], an instance that holds a declared field that
    is not required cannot be projected: the comparison with the default
    is never reached. *)
Lemma dict_exclude_defaults_raises self by_alias k v field :
  (k, v) ∈ __dict__ self →
  dict_get k (__fields__ (classes (cls self))) = Some field →
  required field = false →
  project self by_alias None false true false = Raise (NameError "_missing").
Proof.
  intros Hin Hfield Hreq. unfold dict, dict_with.
  rewrite iter_with_to_dict by done. simpl.
  match goal with
  | |- context [mapM ?f ?l] =>
      destruct (mapM_raises f l (k, v) (NameError "_missing") Hin) as [e E]
  end.
  { unfold iter_item. simpl. rewrite Hfield. simpl. by rewrite Hreq. }
  rewrite E. simpl. f_equal.
  apply mapM_Raise in E as (kv & _ & Hr).
  apply iter_item_raises in Hr as [->|Hr]; [done|].
  by apply _get_value_raises in Hr.
Qed.

(** *** Projection of plain values *)

Lemma _get_value_plain v :
  ∀ cls o,
    plain_value (negb (use_enum_values (Config (classes cls)))) v = true →
    get_value cls o v = Ok v.
Proof.
  induction v as [| | | |en m v IH|l IH|l IH|d IH|m IH]
    using Value_nested_ind; intros cls o Hp; simpl in *; try done.
  - by destruct (use_enum_values _).
  - rewrite (mapM_id (get_value cls o) l); [done|].
    apply forallb_Forall in Hp. apply Forall_forall. intros x Hx.
    apply (proj1 (Forall_forall _ _) IH x Hx).
    apply (proj1 (Forall_forall _ _) Hp x Hx).
  - rewrite (mapM_id (get_value cls o) l); [done|].
    apply forallb_Forall in Hp. apply Forall_forall. intros x Hx.
    apply (proj1 (Forall_forall _ _) IH x Hx).
    apply (proj1 (Forall_forall _ _) Hp x Hx).
  - rewrite (mapM_fmap _ (λ kv, kv) d); [by rewrite list_fmap_id|].
    apply forallb_Forall in Hp. apply Forall_forall. intros [k x] Hx.
    pose proof (proj1 (Forall_forall _ _) IH _ Hx cls o) as Hg.
    pose proof (proj1 (Forall_forall _ _) Hp _ Hx) as Hpx. simpl in *.
    by rewrite (Hg Hpx).
Qed.

(** Projecting an instance of plain values that holds no declared field
    that is not required gives back its values, with [exclude_defaults] or
    without: required and undeclared entries are never left out by it. *)
Lemma dict_plain_required x exclude_defaults :
  NoDup (__dict__ x).*1 →
  Forall (λ kv, plain_value (negb (use_enum_values (Config (classes (cls x)))))
                            kv.2 = true) (__dict__ x) →
  (exclude_defaults = true →
   Forall (λ kv, from_option required true
                   (dict_get kv.1 (__fields__ (classes (cls x)))) = true)
          (__dict__ x)) →
  project x false None false exclude_defaults false = Ok (__dict__ x).
Proof.
  intros Hd Hp Hr. unfold dict, dict_with.
  rewrite iter_with_to_dict by done. simpl.
  rewrite (mapM_fmap _ (λ kv, [kv])).
  - simpl. by rewrite concat_singletons, dict_of_distinct.
  - apply Forall_forall. intros [k v] Hin.
    pose proof (proj1 (Forall_forall _ _) Hp _ Hin) as Hv. simpl in Hv.
    unfold iter_item. simpl. rewrite _get_value_plain by done.
    destruct exclude_defaults; [|done].
    pose proof (proj1 (Forall_forall _ _) (Hr eq_refl) _ Hin) as Hk.
    simpl in Hk. by rewrite Hk.
Qed.

Lemma dict_plain x :
  NoDup (__dict__ x).*1 →
  Forall (λ kv, plain_value (negb (use_enum_values (Config (classes (cls x)))))
                            kv.2 = true) (__dict__ x) →
  project x false None false false false = Ok (__dict__ x).
Proof. intros Hd Hp. by apply dict_plain_required. Qed.

End projection_claims.

(** ** The examples *)

Lemma inherit_parent_first_witness :
  let st := extract_all Examples.child_registrations
              (inherit Examples.parent_registry
                       (Examples.parent_store, __init__)) in
  deref (get_field_validators "x" st).2.1 (get_field_validators "x" st).1
  = field_seq (Examples.parent_store, Examples.parent_registry) "x"
    ++ own_validators "x" Examples.child_registrations
    ++ (_all_fields_validators Examples.parent_registry
        ++ _all_fields_validators __init__)
  ∧ _all_fields_validators st.2
    = _all_fields_validators Examples.parent_registry
      ++ _all_fields_validators __init__
  ∧ root_validators st.2
    = root_validators Examples.parent_registry ++ root_validators __init__.
Proof.
  apply (inherit_parent_first Examples.parent_store Examples.parent_registry
           __init__ Examples.child_registrations "x").
  - unfold closed. by_computation.
  - reflexivity.
Defined.

Section examples.
Import Model Examples.

Local Abbreviation project := (dict classes ROOT_KEY is_true).

(** The instance of the specification's example. *)
Lemma person_state :
  __dict__ person = [("name", VStr "A"); ("age", VInt 0)]
  ∧ __fields_set__ person = {["name"]}.
Proof. split; [reflexivity|]. vm_compute. reflexivity. Qed.

(** C4 (on the code).  For the specification's example, the projection
    with [exclude_defaults] raises [NameError] at the field [age] where
    the specification has the mapping with [name] alone; the same
    instance projects to both entries without [exclude_defaults]. *)
Theorem dict_exclude_defaults_person :
  project person false None false true false = Raise (NameError "_missing")
  ∧ project person false None false false false
    = Ok [("name", VStr "A"); ("age", VInt 0)].
Proof. split; vm_compute; reflexivity. Qed.





End examples.

(** * Further properties of the registry *)

Section registry_more.
Implicit Types (h : list (list FieldValidator)) (C P : ValidationFunctions).

Lemma take_alloc h0 h l : take (length h0) h = h0 → take (length h0) (h ++ [l]) = h0.
Proof.
  intros Hf. rewrite take_app_le; [done|].
  rewrite <- Hf at 1. rewrite length_take. lia.
Qed.

Lemma take_length_le h0 h : take (length h0) h = h0 → length h0 ≤ length h.
Proof. intros Hf. rewrite <- Hf at 1. rewrite length_take. lia. Qed.

(** Binding a key to a new list, in any registry of the store. *)
Lemma closed_alloc_set h C k l :
  closed (h, C) →
  closed (h ++ [l], set_field k (length h) C)
  ∧ ∀ f, field_seq (h ++ [l], set_field k (length h) C) f
         = if decide (k = f) then l else field_seq (h, C) f.
Proof.
  intros Hc. split.
  - intros k' r. simpl. rewrite length_app, lookup_insert. simpl.
    case_decide; [intros [= <-]; lia|]. intros H'. apply Hc in H'. simpl in H'. lia.
  - intros f. unfold field_seq. simpl. rewrite lookup_insert.
    case_decide; simpl; [apply deref_alloc_new|].
    destruct (_field_validators C !! f) as [r|] eqn:E; simpl; [|done].
    apply deref_alloc_old. by apply (Hc f r).
Qed.

Lemma inherit_item_closed h0 k v h C :
  take (length h0) h = h0 → closed (h, C) → v < length h0 →
  take (length h0) (inherit_item k v (h, C)).1 = h0
  ∧ closed (inherit_item k v (h, C))
  ∧ (∀ f, field_seq (inherit_item k v (h, C)) f
          = if decide (k = f) then deref h0 v else field_seq (h, C) f)
  ∧ same_lists C (inherit_item k v (h, C)).2.
Proof.
  intros Hf Hc Hv. unfold inherit_item, alloc.
  destruct (truthy h (_field_validators C !! k)).
  - set (g := from_option (deref h) [] (_field_validators C !! k) ++ deref h v).
    destruct (closed_alloc_set h C k g Hc) as [Hc1 Hs1].
    destruct (closed_alloc_set _ _ k (deref (h ++ [g]) v) Hc1) as [Hc2 Hs2].
    split; [by apply take_alloc, take_alloc|]. split; [done|]. split; [|done].
    intros f. rewrite Hs2, Hs1. case_decide; [|done].
    apply deref_frame; [by apply take_alloc|done].
  - destruct (closed_alloc_set h C k (deref h v) Hc) as [Hc1 Hs1].
    split; [by apply take_alloc|]. split; [done|]. split; [|done].
    intros f. rewrite Hs1. case_decide; [|done]. by apply deref_frame.
Qed.

(** X1.  [inherit] replaces and does not merge: afterwards the registry
    holds, for every key of the parent, a copy of the parent's sequence,
    whatever it held for that key before, and keeps its own sequence for the
    other keys; the lists that existed before the call are untouched. *)
Theorem inherit_replaces h0 P C f :
  closed (h0, P) → closed (h0, C) →
  field_seq (inherit P (h0, C)) f
  = match _field_validators P !! f with
    | Some r => deref h0 r
    | None => field_seq (h0, C) f
    end
  ∧ take (length h0) (inherit P (h0, C)).1 = h0
  ∧ _used_validators (inherit P (h0, C)).2 = _used_validators C.
Proof.
  intros HP HC. unfold inherit.
  cut (take (length h0) (map_fold inherit_item (h0, C) (_field_validators P)).1 = h0
       ∧ closed (map_fold inherit_item (h0, C) (_field_validators P))
       ∧ (∀ f, field_seq (map_fold inherit_item (h0, C) (_field_validators P)) f
               = match _field_validators P !! f with
                 | Some r => deref h0 r
                 | None => field_seq (h0, C) f
                 end)
       ∧ same_lists C (map_fold inherit_item (h0, C) (_field_validators P)).2).
  { destruct (map_fold inherit_item (h0, C) (_field_validators P)) as [h C'].
    intros (Hf & _ & Hs & _ & _ & Hu). simpl in *.
    split; [apply Hs|]. by split. }
  unfold closed in HP. simpl in HP. revert HP.
  apply (map_fold_weak_ind
    (λ (st : St) (m : gmap string nat),
       map_Forall (λ _ r, r < length h0) m →
       take (length h0) st.1 = h0 ∧ closed st
       ∧ (∀ f, field_seq st f
               = match m !! f with
                 | Some r => deref h0 r
                 | None => field_seq (h0, C) f
                 end)
       ∧ same_lists C st.2)).
  - intros _. split; [by rewrite firstn_all|]. split; [done|]. split; [|done].
    intros g. by rewrite lookup_empty.
  - intros k v m [h C'] Hk IH Hall.
    apply map_Forall_insert in Hall as [Hv Hall]; [|done].
    destruct (IH Hall) as (Hf & Hc & Hs & Hl). simpl in Hf.
    destruct (inherit_item_closed h0 k v h C' Hf Hc Hv) as (Hf' & Hc' & Hs' & Hl').
    split; [done|]. split; [done|]. split.
    + intros g. rewrite Hs', lookup_insert. case_decide; [done|]. apply Hs.
    + destruct Hl as (?&?&?), Hl' as (?&?&?). simpl in *.
      repeat split; congruence.
Qed.

Lemma get_field_validators_owned h0 name st :
  owned h0 st → owned h0 (get_field_validators name st).2.
Proof.
  destruct st as [h C]. intros Ho.
  pose proof (owned_length _ _ _ Ho) as Hlen. destruct Ho as [Hf Hr Hi].
  unfold get_field_validators. simpl in *.
  destruct (_field_validators C !! name) as [r|] eqn:E; simpl.
  - pose proof (Hr _ _ E). split; simpl.
    + unfold extend. rewrite take_insert. case_decide; [lia|done].
    + intros k r'. unfold extend. rewrite length_insert. apply Hr.
    + done.
  - split; simpl.
    + unfold extend. rewrite take_insert. case_decide; [lia|].
      by rewrite take_app_le.
    + intros k r' H'. apply Hr in H'. unfold extend.
      rewrite length_insert, length_app. simpl. lia.
    + done.
Qed.

Lemma resolve_all_owned h0 names st :
  owned h0 st → owned h0 (resolve_all names st).
Proof.
  revert st. induction names as [|name names IH]; intros st Ho; [done|].
  apply IH. by apply get_field_validators_owned.
Qed.

(** X2.  A registry that inherited from a parent has its own lists:
    whatever it registers and resolves afterwards, the parent's stored
    sequences stay what they were. *)
Theorem child_leaves_parent h0 P C0 regs names f :
  closed (h0, P) →
  _field_validators C0 = ∅ →
  field_seq ((resolve_all names (extract_all regs (inherit P (h0, C0)))).1, P) f
  = field_seq (h0, P) f.
Proof.
  intros HP HC.
  destruct (inherit_owned h0 P C0 HP HC) as (Ho1 & _).
  destruct (extract_all_owned h0 regs _ Ho1) as (Ho2 & _).
  destruct (resolve_all_owned h0 names _ Ho2) as [Hf _ _].
  unfold field_seq. simpl.
  destruct (_field_validators P !! f) as [r|] eqn:E; simpl; [|done].
  apply deref_frame; [done|]. by apply (HP f r).
Qed.

(** X3.  Resolving a name that is not a key returns a new list holding the
    all-fields validators; no key is added, the stored sequences are what
    they were, and the returned list is none of the stored ones. *)
Theorem resolve_unknown name st :
  closed st →
  _field_validators st.2 !! name = None →
  deref (get_field_validators name st).2.1 (get_field_validators name st).1
  = _all_fields_validators st.2
  ∧ _field_validators (get_field_validators name st).2.2 = _field_validators st.2
  ∧ (∀ f, field_seq (get_field_validators name st).2 f = field_seq st f)
  ∧ (∀ k r, _field_validators st.2 !! k = Some r →
            r ≠ (get_field_validators name st).1).
Proof.
  destruct st as [h C]. intros Hc Hn. simpl in Hn.
  unfold get_field_validators, alloc. simpl. rewrite Hn. simpl.
  split; [|split; [done|split]].
  - rewrite deref_extend_same by (rewrite length_app; simpl; lia).
    by rewrite deref_alloc_new.
  - intros f. unfold field_seq. simpl.
    destruct (_field_validators C !! f) as [r|] eqn:E; simpl; [|done].
    pose proof (Hc f r E) as Hr. simpl in Hr.
    rewrite deref_extend_other by lia. by apply deref_alloc_old.
  - intros k r Hk. pose proof (Hc k r Hk) as Hr. simpl in Hr. lia.
Qed.

Lemma resolve_all_marks names st :
  _used_validators (resolve_all names st).2
  = list_to_set names ∪ _used_validators st.2
  ∧ _field_validators (resolve_all names st).2 = _field_validators st.2.
Proof.
  revert st. induction names as [|name names IH]; intros st; simpl.
  - split; [set_solver|done].
  - destruct (IH (get_field_validators name st).2) as [Hu Hf].
    destruct (get_field_validators_marks name st) as (Hu' & Hf' & _).
    unfold resolve_all in *. rewrite Hu, Hf, Hu', Hf'. split; [set_solver|done].
Qed.

(** X4.  Once every key of the dict has been resolved, [check_for_unused]
    passes, whatever the validators are. *)
Theorem resolve_all_then_check names st :
  (∀ k, is_Some (_field_validators st.2 !! k) → k ∈ names) →
  check_for_unused (resolve_all names st) = Ok ().
Proof.
  intros Hall. apply check_for_unused_unchecked. intros f r v Hf Hu.
  destruct (resolve_all_marks names st) as [Hused Hfv].
  rewrite Hfv in Hf. exfalso. apply Hu. rewrite Hused.
  apply elem_of_union_l, elem_of_list_to_set, Hall. by eexists.
Qed.

(** The message of the error names every offending entry. *)
Lemma check_for_unused_message st v :
  offending st v →
  ∃ msg pre post,
    check_for_unused st = Raise (ConfigError msg)
    ∧ msg = pre +:+ __name__ (function v) +:+ post.
Proof.
  intros Hv. unfold check_for_unused. case_decide as Hu.
  { exfalso.
    assert (__name__ (function v) ∈ unused_validators st) as Hin.
    { apply elem_of_unused_validators. by exists v. }
    rewrite Hu in Hin. by apply not_elem_of_empty in Hin. }
  assert (__name__ (function v) ∈ elements (unused_validators st)) as Hin.
  { apply elem_of_elements, elem_of_unused_validators. by exists v. }
  destruct (concat_occurs ", " _ _ Hin) as (pre & post & E).
  eexists. exists ("Validators defined with incorrect fields: " +:+ pre).
  eexists. split; [done|].
  unfold unused_message. rewrite E. by rewrite !string_app_assoc.
Qed.

Lemma own_validators_elem f regs v :
  v ∈ own_validators f regs ↔
  ∃ value fields, value ∈ regs
    ∧ __field_validator__ value = Some (fields, v) ∧ f ∈ fields.
Proof.
  unfold own_validators. rewrite list_elem_of_In, in_flat_map. split.
  - intros (value & Hvalue & Hin). apply list_elem_of_In in Hvalue.
    destruct (__field_validator__ value) as [[fields validator]|] eqn:E;
      [|by apply list_elem_of_In, elem_of_nil in Hin].
    apply in_flat_map in Hin as (g & Hg & Hin). apply list_elem_of_In in Hg.
    case_decide; [|by apply list_elem_of_In, elem_of_nil in Hin].
    apply list_elem_of_In, list_elem_of_singleton in Hin. subst.
    by exists value, fields.
  - intros (value & fields & Hvalue & E & Hf). exists value.
    split; [by apply list_elem_of_In|]. rewrite E.
    apply in_flat_map. exists f. split; [by apply list_elem_of_In|].
    rewrite decide_True by done. by left.
Qed.

(** What a new registry stores after a run of registrations. *)
Lemma extract_all_fresh h0 C0 regs f :
  _field_validators C0 = ∅ →
  field_seq (extract_all regs (h0, C0)) f = own_validators f regs
  ∧ _used_validators (extract_all regs (h0, C0)).2 = _used_validators C0.
Proof.
  intros HC.
  destruct (extract_all_owned h0 regs (h0, C0) (owned_start h0 C0 HC))
    as (_ & Hs & _ & _ & Hu).
  split; [|done]. rewrite Hs. unfold field_seq. simpl.
  by rewrite HC, lookup_empty.
Qed.

(** X5.  A validator registered for a field with its field-existence check
    on makes [check_for_unused] fail with a [ConfigError] naming its
    function, as long as the field is not resolved. *)
Theorem registered_unresolved_fails h0 C0 regs value fields validator f :
  _field_validators C0 = ∅ →
  value ∈ regs →
  __field_validator__ value = Some (fields, validator) →
  f ∈ fields →
  check_fields validator = true →
  f ∉ _used_validators C0 →
  ∃ msg pre post,
    check_for_unused (extract_all regs (h0, C0)) = Raise (ConfigError msg)
    ∧ msg = pre +:+ __name__ (function validator) +:+ post.
Proof.
  intros HC Hvalue Htag Hf Hcheck Hused.
  destruct (extract_all_fresh h0 C0 regs f HC) as [Hs Hu].
  apply check_for_unused_message.
  assert (validator ∈ field_seq (extract_all regs (h0, C0)) f) as Hin.
  { rewrite Hs. apply own_validators_elem. by exists value, fields. }
  unfold field_seq in Hin.
  destruct (_field_validators (extract_all regs (h0, C0)).2 !! f) as [r|] eqn:E;
    simpl in Hin; [|by apply elem_of_nil in Hin].
  exists f, r. by rewrite Hu.
Qed.

(** X6.  Registrations whose field-existence check is off never make
    [check_for_unused] fail, resolved or not. *)
Theorem unchecked_registrations_pass h0 C0 regs :
  _field_validators C0 = ∅ →
  (∀ value fields validator,
     value ∈ regs → __field_validator__ value = Some (fields, validator) →
     check_fields validator = false) →
  check_for_unused (extract_all regs (h0, C0)) = Ok ().
Proof.
  intros HC Hoff. apply check_for_unused_unchecked. intros f r v Hf _ Hv.
  destruct (extract_all_fresh h0 C0 regs f HC) as [Hs _].
  unfold field_seq in Hs. rewrite Hf in Hs. simpl in Hs. rewrite Hs in Hv.
  apply own_validators_elem in Hv as (value & fields & Hvalue & Htag & _).
  by apply (Hoff value fields v).
Qed.
End registry_more.

(** * Further properties of model instances *)

(** ** Assignment *)

Section setattr_more.
Import Model.
Context (classes : string → ModelClass) (DUNDER_ATTRIBUTES : gset string).

Local Abbreviation setattr := (__setattr__ classes DUNDER_ATTRIBUTES).

Implicit Types (self : Instance) (name : string) (value : Value).



(** The tests that every assignment of a field passes before it is stored. *)
Lemma setattr_admitted self name value :
  dict_in name (__private_attributes__ (classes (cls self))) = false →
  name ∉ DUNDER_ATTRIBUTES →
  extra (__config__ (classes (cls self))) = allow
  ∨ dict_in name (__fields__ (classes (cls self))) = true →
  allow_mutation (__config__ (classes (cls self))) = true →
  frozen (__config__ (classes (cls self))) = false →
  from_option final false (dict_get name (__fields__ (classes (cls self))))
  = false →
  setattr self name value
  = let C := classes (cls self) in
    let add_name (self : Instance) : Instance :=
      {| cls := cls self; __dict__ := __dict__ self;
         __fields_set__ := {[name]} ∪ __fields_set__ self;
         slots := slots self |} in
    let set_dict (self : Instance) d : Instance :=
      {| cls := cls self; __dict__ := d;
         __fields_set__ := __fields_set__ self; slots := slots self |} in
    if validate_assignment (__config__ C) then
      let new_values := dict_set name value (__dict__ self) in
      match dict_get name (__fields__ C) with
      | Some known_field =>
          if negb (field_info_allow_mutation known_field)
          then (Raise (TypeError (dq +:+ Model.name known_field
                  +:+ dq +:+ " has allow_mutation set to False and cannot be assigned")),
                self)
          else
            let dict_without_original_value :=
              filter (λ kv : string * Value, kv.1 ≠ name) (__dict__ self) in
            match validate known_field value dict_without_original_value with
            | (_, Some error_) => (Raise (ValidationError name error_), self)
            | (value, None) =>
                (Ok (), add_name (set_dict self (dict_set name value new_values)))
            end
      | None => (Ok (), add_name (set_dict self new_values))
      end
    else (Ok (), add_name (set_dict self (dict_set name value (__dict__ self)))).
Proof.
  intros Hp Hd Hknown Hmut Hfrozen Hfinal. unfold __setattr__.
  rewrite Hp, (bool_decide_eq_false_2 _ Hd). simpl.
  assert (bool_decide (extra (__config__ (classes (cls self))) ≠ allow)
          && negb (dict_in name (__fields__ (classes (cls self)))) = false)
    as ->.
  { destruct Hknown as [->| ->]; [done|]. by rewrite andb_false_r. }
  by rewrite Hmut, Hfrozen, Hfinal.
Qed.




(** X12.  An assignment that raises, for whatever reason, leaves the
    instance exactly as it was. *)
Theorem setattr_failure_atomic self name value e :
  (__setattr__ classes DUNDER_ATTRIBUTES self name value).1 = Raise e →
  (__setattr__ classes DUNDER_ATTRIBUTES self name value).2 = self.
Proof. apply setattr_atomic. Qed.

(** Every name in the set of fields is a key of the values: assignments
    keep it so. *)
Lemma setattr_keeps_fields_set self name value :
  __fields_set__ self ⊆ dict_keys (__dict__ self) →
  __fields_set__ (setattr self name value).2
  ⊆ dict_keys (__dict__ (setattr self name value).2).
Proof.
  intros Hsub. unfold __setattr__, object_setattr.
  repeat match goal with
         | |- context [if ?b then _ else _] => destruct b
         | |- context [match ?o with Some _ => _ | None => _ end] => destruct o
         | |- context [match ?p with (_, _) => _ end] => destruct p
         end; simpl; try done;
    rewrite ?dict_set_keys; set_solver.
Qed.

End setattr_more.

(** ** More on dicts *)

Section dict_more.
Import Model.
Context {V : Type}.
Implicit Types (d items : list (string * V)) (k : string) (v : V).

Lemma dict_get_app k d1 d2 :
  dict_get k (d1 ++ d2)
  = match dict_get k d1 with
    | Some v => Some v
    | None => dict_get k d2
    end.
Proof. induction d1 as [|[k1 v1] d1 IH]; simpl; [done|]. by case_decide. Qed.

(** The keys after an assignment, in order. *)
Lemma dict_set_order k v d :
  (dict_set k v d).*1 = if decide (k ∈ d.*1) then d.*1 else d.*1 ++ [k].
Proof.
  induction d as [|[k0 v0] d IH].
  - destruct (decide (k ∈ ([] : list (string * V)).*1)) as [Hin|Hin]; [|done].
    by apply elem_of_nil in Hin.
  - cbn [dict_set]. rewrite fmap_cons. cbn [fst].
    destruct (decide (k = k0)) as [->|Hne].
    + rewrite fmap_cons. cbn [fst].
      destruct (decide (k0 ∈ k0 :: d.*1)) as [Hin|Hin]; [done|].
      exfalso. apply Hin, elem_of_cons. by left.
    + rewrite fmap_cons, IH. cbn [fst].
      destruct (decide (k ∈ d.*1)) as [Hin|Hin];
        destruct (decide (k ∈ k0 :: d.*1)) as [Hin'|Hin']; try done.
      * exfalso. apply Hin', elem_of_cons. by right.
      * exfalso. apply elem_of_cons in Hin' as [?|?]; done.
Qed.

Lemma filter_ext_in {A : Type} (P1 P2 : A → Prop)
    `{!∀ x, Decision (P1 x), !∀ x, Decision (P2 x)} (l : list A) :
  (∀ x, x ∈ l → P1 x ↔ P2 x) → filter P1 l = filter P2 l.
Proof.
  induction l as [|a l IH]; intros Hiff; [done|].
  assert (filter P1 l = filter P2 l) as IH'.
  { apply IH. intros x Hx. apply Hiff, elem_of_cons. by right. }
  assert (P1 a ↔ P2 a) as Ha by (apply Hiff, elem_of_cons; by left).
  destruct (decide (P1 a)).
  - rewrite !filter_cons_True by tauto. by rewrite IH'.
  - rewrite !filter_cons_False by tauto. by rewrite IH'.
Qed.

(** The keys after an update, in order: the old ones, then the new ones as
    they come. *)
Lemma dict_update_order d items :
  NoDup items.*1 →
  (dict_update d items).*1 = d.*1 ++ filter (λ k, k ∉ d.*1) items.*1.
Proof.
  unfold dict_update. revert d.
  induction items as [|[k0 v0] items IH]; intros d Hd; simpl.
  - by rewrite app_nil_r.
  - apply NoDup_cons in Hd as [Hk Hd]. rewrite (IH _ Hd). simpl.
    rewrite dict_set_order. destruct (decide (k0 ∈ d.*1)) as [Hin|Hin].
    + rewrite filter_cons_False by tauto. done.
    + rewrite filter_cons_True by done. rewrite <- app_assoc. simpl.
      do 2 f_equal. apply filter_ext_in. intros x Hx.
      rewrite elem_of_app, list_elem_of_singleton.
      split; [tauto|]. intros Hn [?| ->]; [tauto|]. by apply Hk.
Qed.

(** Lookups in a dict all of whose items are given by one function. *)
Lemma dict_get_consistent (g : string → option V) d k :
  (∀ k v, (k, v) ∈ d → g k = Some v) →
  dict_get k d = if decide (k ∈ d.*1) then g k else None.
Proof.
  intros Hg. destruct (dict_get k d) as [v|] eqn:E.
  - rewrite decide_True.
    + symmetry. by apply Hg, dict_get_Some.
    + apply dict_get_Some in E. apply list_elem_of_fmap. by exists (k, v).
  - rewrite decide_False; [done|]. by apply dict_get_None.
Qed.

Lemma dict_set_elem k v d x : x ∈ dict_set k v d → x = (k, v) ∨ x ∈ d.
Proof.
  induction d as [|[k0 v0] d IH]; simpl.
  - intros ->%list_elem_of_singleton. by left.
  - case_decide; rewrite !elem_of_cons; [tauto|].
    intros [-> |Hx]; [tauto|]. destruct (IH Hx); tauto.
Qed.

Lemma dict_update_elem d items x :
  x ∈ dict_update d items → x ∈ d ∨ x ∈ items.
Proof.
  unfold dict_update. revert d.
  induction items as [|[k0 v0] items IH]; intros d; simpl; [tauto|].
  intros [H'|H']%IH.
  - apply dict_set_elem in H' as [-> |H']; [|tauto].
    right. apply elem_of_cons. by left.
  - right. apply elem_of_cons. by right.
Qed.

Lemma dict_update_consistent (g : string → option V) d items k :
  (∀ k v, (k, v) ∈ d → g k = Some v) →
  (∀ k v, (k, v) ∈ items → g k = Some v) →
  dict_get k (dict_update d items)
  = if decide (k ∈ dict_keys d ∪ dict_keys items) then g k else None.
Proof.
  intros Hd Hitems.
  rewrite (dict_get_consistent g).
  - assert (k ∈ (dict_update d items).*1 ↔ k ∈ dict_keys d ∪ dict_keys items)
      as Hiff.
    { rewrite <- dict_update_keys. unfold dict_keys.
      by rewrite elem_of_list_to_set. }
    by repeat case_decide; tauto.
  - intros k' v' [H'|H']%dict_update_elem; eauto.
Qed.
End dict_more.

(** ** More on construction *)

Section construct_more.
Import Model.
Context (classes : string → ModelClass).
Implicit Types (values : list (string * Value)) (k : string).

Lemma construct_field_value values acc name field :
  construct_field values acc (name, field)
  = match field_value values name field with
    | Some v => dict_set name v acc
    | None => acc
    end.
Proof.
  unfold construct_field, field_value.
  destruct (if alt_alias field then dict_get (alias field) values else None);
    [done|].
  destruct (dict_get name values); [done|]. by destruct (required field).
Qed.

Lemma construct_fields_order values fields acc :
  NoDup fields.*1 →
  (∀ k, k ∈ fields.*1 → k ∉ acc.*1) →
  (foldl (construct_field values) acc fields).*1
  = acc.*1 ++ filled_fields values fields.
Proof.
  revert acc. induction fields as [|[k0 f0] fields IH]; intros acc Hd Hacc.
  - simpl. by rewrite app_nil_r.
  - apply NoDup_cons in Hd as [Hk Hd]. cbn [foldl].
    rewrite construct_field_value. unfold filled_fields. simpl.
    assert (k0 ∉ acc.*1) as Hk0 by (apply Hacc, elem_of_cons; by left).
    destruct (field_value values k0 f0) as [v|]; simpl.
    + rewrite IH; [|done|].
      * rewrite dict_set_order, decide_False by done.
        by rewrite <- app_assoc.
      * intros k Hin. rewrite dict_set_order, decide_False by done.
        rewrite elem_of_app, list_elem_of_singleton.
        intros [H'| ->]; [|done].
        by apply (Hacc k); [apply elem_of_cons; right|].
    + apply IH; [done|]. intros k Hin. apply Hacc, elem_of_cons. by right.
Qed.


End construct_more.

(** ** Private attributes: construction, pickling and copies *)

Section slots_more.
Import Model.
Context (classes : string → ModelClass) (ROOT_KEY : string)
        (ValueItems_is_true : Value → bool).
Implicit Types (self x m : Instance) (a k : string).

Lemma omap_keys_elem {A : Type} (g : string * A → option Value)
    (l : list (string * A)) k v :
  (k, v) ∈ omap (λ kv, (λ v, (kv.1, v)) <$> g kv) l
  ↔ ∃ y, (k, y) ∈ l ∧ g (k, y) = Some v.
Proof.
  rewrite list_elem_of_omap. split.
  - intros ([k' y] & Hin & Hg). simpl in Hg.
    destruct (g (k', y)) as [v'|] eqn:E; [|done].
    injection Hg as -> ->. by exists y.
  - intros (y & Hin & Hg). exists (k, y). split; [done|]. simpl.
    by rewrite Hg.
Qed.

Lemma omap_keys_NoDup {A : Type} (g : string * A → option Value)
    (l : list (string * A)) :
  NoDup l.*1 → NoDup (omap (λ kv, (λ v, (kv.1, v)) <$> g kv) l).*1.
Proof.
  induction l as [|[k y] l IH]; intros Hd; [constructor|].
  apply NoDup_cons in Hd as [Hk Hd]. cbn [omap list_omap].
  destruct (g (k, y)) as [v|]; simpl; [|by apply IH].
  apply NoDup_cons. split; [|by apply IH].
  intros ([k' v'] & Heq & Hin)%list_elem_of_fmap. simpl in Heq. subst k'.
  apply omap_keys_elem in Hin as (y' & Hin & _).
  apply Hk, list_elem_of_fmap. by exists (k, y').
Qed.

Lemma dict_get_defaults (l : list (string * option Value)) a :
  NoDup l.*1 →
  dict_get a (omap (λ kv, (λ v, (kv.1, v)) <$> kv.2) l)
  = from_option id None (dict_get a l).
Proof.
  induction l as [|[k o] l IH]; intros Hd; [done|].
  apply NoDup_cons in Hd as [Hk Hd]. cbn [omap list_omap].
  destruct o as [v|]; simpl.
  - case_decide; [done|]. by apply IH.
  - case_decide; [|by apply IH]. subst a. simpl.
    apply dict_get_None.
    intros ([k' v'] & Heq & Hin)%list_elem_of_fmap. simpl in Heq. subst k'.
    apply (omap_keys_elem (λ kv, kv.2)) in Hin as (y' & Hin & _).
    apply Hk, list_elem_of_fmap. by exists (k, y').
Qed.


Lemma omap_pairs_id (l : list (string * Value)) :
  omap (λ kv : string * Value, (λ v, (kv.1, v)) <$> Some kv.2) l = l.
Proof.
  induction l as [|[k v] l IH]; [done|].
  exact (f_equal (cons (k, v)) IH).
Qed.

Lemma dict_update_distinct_keys {V : Type} (d items : list (string * V)) :
  NoDup d.*1 → NoDup (dict_update d items).*1.
Proof.
  unfold dict_update. revert d.
  induction items as [|kv items IH]; intros d Hd; [done|].
  simpl. by apply IH, dict_set_distinct.
Qed.

(** The slots read off an instance for a list of names, as
    [__getstate__] and [_copy_and_set_values] do. *)
Lemma dict_get_read_slots {A : Type} x (l : list (string * A)) a :
  dict_get a (dict_of (omap (λ kv : string * A,
                               (λ v, (kv.1, v)) <$> dict_get kv.1 (slots x)) l))
  = if decide (a ∈ l.*1) then dict_get a (slots x) else None.
Proof.
  unfold dict_of.
  rewrite (dict_update_consistent (λ k, dict_get k (slots x))).
  - destruct (decide (a ∈ l.*1)) as [Hin|Hin].
    + destruct (dict_get a (slots x)) as [v|] eqn:E; [|by case_decide].
      rewrite decide_True; [done|].
      apply elem_of_union_r. unfold dict_keys.
      apply elem_of_list_to_set, list_elem_of_fmap. exists (a, v).
      split; [done|].
      apply list_elem_of_fmap in Hin as ([k y] & -> & Hin).
      apply (omap_keys_elem (λ kv, dict_get kv.1 (slots x))).
      by exists y.
    + rewrite decide_False; [done|].
      intros [H'|H']%elem_of_union.
      * unfold dict_keys in H'. by apply elem_of_list_to_set, elem_of_nil in H'.
      * unfold dict_keys in H'.
        apply elem_of_list_to_set, list_elem_of_fmap in H'
          as ([k v] & -> & H').
        apply (omap_keys_elem (λ kv, dict_get kv.1 (slots x))) in H'
          as (y & H' & _).
        apply Hin, list_elem_of_fmap. by exists (k, y).
  - intros k v H'. by apply elem_of_nil in H'.
  - intros k v (y & _ & Hg)%(omap_keys_elem (λ kv, dict_get kv.1 (slots x))).
    done.
Qed.


End slots_more.

(** ** More on projection *)

Section projection_more.
Import Model.
Context (classes : string → ModelClass) (ROOT_KEY : string)
        (ValueItems_is_true : Value → bool).

Local Abbreviation get_value := (_get_value classes ROOT_KEY ValueItems_is_true).
Local Abbreviation project := (dict classes ROOT_KEY ValueItems_is_true).

Implicit Types (self x : Instance) (o : Options) (v : Value).

Lemma elem_of_included (include : option (list (string * Value)))
    (keys : gset string) k :
  k ∈ match include with
      | Some include => keys ∩ dict_keys include
      | None => keys
      end
  ↔ k ∈ keys ∧ ∀ inc, include = Some inc → k ∈ dict_keys inc.
Proof.
  destruct include as [inc|].
  - rewrite elem_of_intersection. split.
    + intros [? ?]. split; [done|]. by intros ? [= <-].
    + intros [? Hinc]. split; [done|]. by apply Hinc.
  - split; [|tauto]. intros ?. split; [done|]. by intros ? [=].
Qed.

Lemma elem_of_not_updated (update : option (list (string * Value)))
    (keys : gset string) k :
  k ∈ match update with
      | Some ((_ :: _) as update) => keys ∖ dict_keys update
      | _ => keys
      end
  ↔ k ∈ keys ∧ ∀ upd, update = Some upd → k ∉ dict_keys upd.
Proof.
  destruct update as [[|u upd]|].
  - split; [|tauto]. intros ?. split; [done|]. intros ? [= <-].
    unfold dict_keys. simpl. set_solver.
  - rewrite elem_of_difference. split.
    + intros [? ?]. split; [done|]. by intros ? [= <-].
    + intros [? Hupd]. split; [done|]. by apply Hupd.
  - split; [|tauto]. intros ?. split; [done|]. by intros ? [=].
Qed.

Lemma elem_of_not_excluded (exclude : option (list (string * Value)))
    (keys : gset string) k :
  k ∈ match exclude with
      | Some ((_ :: _) as exclude) =>
          keys ∖ dict_keys (filter (λ kv : string * Value,
                                      ValueItems_is_true kv.2 = true) exclude)
      | _ => keys
      end
  ↔ k ∈ keys ∧ ∀ exc w, exclude = Some exc → (k, w) ∈ exc →
                         ValueItems_is_true w = false.
Proof.
  destruct exclude as [[|e exc]|].
  - split; [|tauto]. intros ?. split; [done|].
    intros ? ? [= <-] Hin. by apply elem_of_nil in Hin.
  - rewrite elem_of_difference. unfold dict_keys.
    rewrite elem_of_list_to_set, list_elem_of_fmap. split.
    + intros [? Hno]. split; [done|]. intros ? w [= <-] Hin.
      destruct (ValueItems_is_true w) eqn:E; [|done].
      exfalso. apply Hno. exists (k, w). split; [done|].
      by apply list_elem_of_filter.
    + intros [? Hex]. split; [done|].
      intros ([k' w] & -> & [Hw Hin]%list_elem_of_filter). simpl in *.
      by rewrite (Hex _ w eq_refl Hin) in Hw.
  - split; [|tauto]. intros ?. split; [done|]. by intros ? ? [=].
Qed.

(** X19.  [_calculate_keys] answers [None] exactly when nothing restricts
    the keys.  Otherwise a key is allowed when it is among the values (the
    set of fields under [exclude_unset]), is a key of [include] when that is
    given, is no key of [update], and has no true entry in [exclude]:
    exclusion wins over inclusion, and an empty [update] or [exclude]
    behaves as an absent one. *)
Theorem _calculate_keys_spec self include exclude exclude_unset update :
  match _calculate_keys ValueItems_is_true self include exclude
                        exclude_unset update with
  | None => include = None ∧ exclude = None ∧ exclude_unset = false
  | Some keys =>
      ¬ (include = None ∧ exclude = None ∧ exclude_unset = false)
      ∧ ∀ k, k ∈ keys ↔
          (if exclude_unset then k ∈ __fields_set__ self
           else k ∈ dict_keys (__dict__ self))
          ∧ (∀ inc, include = Some inc → k ∈ dict_keys inc)
          ∧ (∀ upd, update = Some upd → k ∉ dict_keys upd)
          ∧ (∀ exc w, exclude = Some exc → (k, w) ∈ exc →
                      ValueItems_is_true w = false)
  end.
Proof.
  pose (keys :=
    let keys := if exclude_unset then __fields_set__ self
                else dict_keys (__dict__ self) in
    let keys := match include with
                | Some include => keys ∩ dict_keys include
                | None => keys
                end in
    let keys := match update with
                | Some ((_ :: _) as update) => keys ∖ dict_keys update
                | _ => keys
                end in
    match exclude with
    | Some ((_ :: _) as exclude) =>
        keys ∖ dict_keys (filter (λ kv : string * Value,
                                    ValueItems_is_true kv.2 = true) exclude)
    | _ => keys
    end).
  assert (∀ k, k ∈ keys ↔
            (if exclude_unset then k ∈ __fields_set__ self
             else k ∈ dict_keys (__dict__ self))
            ∧ (∀ inc, include = Some inc → k ∈ dict_keys inc)
            ∧ (∀ upd, update = Some upd → k ∉ dict_keys upd)
            ∧ (∀ exc w, exclude = Some exc → (k, w) ∈ exc →
                        ValueItems_is_true w = false)) as Hkeys.
  { intros k. unfold keys. cbv zeta.
    rewrite (elem_of_not_excluded exclude), (elem_of_not_updated update),
      (elem_of_included include).
    destruct exclude_unset; tauto. }
  assert (_calculate_keys ValueItems_is_true self include exclude
                          exclude_unset update
          = match include, exclude, exclude_unset with
            | None, None, false => None
            | _, _, _ => Some keys
            end) as ->.
  { unfold _calculate_keys, keys.
    by destruct include, exclude as [[|]|], exclude_unset, update as [[|]|]. }
  clearbody keys.
  destruct include, exclude, exclude_unset; try done;
    (split; [by intros (? & ? & ?)|done]).
Qed.
Lemma concat_filter {A : Type} (P : A → Prop) `{!∀ a, Decision (P a)}
    (l : list A) :
  concat ((λ a, if decide (P a) then [a] else []) <$> l) = filter P l.
Proof.
  induction l as [|a l IH]; [done|]. rewrite fmap_cons. cbn [concat].
  rewrite IH. destruct (decide (P a)).
  - by rewrite filter_cons_True.
  - by rewrite filter_cons_False.
Qed.


Lemma Forall_forallb {A : Type} (f : A → bool) (l : list A) :
  Forall (λ a, f a = true) l → forallb f l = true.
Proof.
  induction 1 as [|a l Ha _ IH]; [done|]. simpl. by rewrite Ha, IH.
Qed.

(** What a round of [_iter] yields under [to_dict] went through
    [_get_value]. *)
Lemma iter_with_values gv (P : Value → Prop) self o items :
  to_dict o = true →
  Forall (λ kv, ∀ w, gv (cls self) o kv.2 = Ok w → P w) (__dict__ self) →
  iter_with classes ValueItems_is_true gv self o = Ok items →
  Forall (λ kv, P kv.2) items.
Proof.
  intros Hto Hall. rewrite iter_with_to_dict by done.
  destruct (mapM _ (__dict__ self)) as [yielded|e] eqn:E; simpl; [|done].
  intros [= <-]. apply mapM_Ok in E.
  apply Forall_forall. intros kv Hkv.
  apply list_elem_of_In, in_concat in Hkv as (ys & Hys & Hkv).
  apply list_elem_of_In in Hys, Hkv.
  apply list_elem_of_lookup in Hys as [i Hi].
  destruct (Forall2_lookup_r _ _ _ _ _ E Hi) as ([k v] & Hl & Hitem).
  pose proof (proj1 (Forall_forall _ _) Hall (k, v)
                (list_elem_of_lookup_2 _ _ _ Hl)) as Hv.
  unfold iter_item in Hitem. rewrite Hto in Hitem. simpl in Hitem, Hv.
  destruct (_ || _); simpl in Hitem.
  { injection Hitem as <-. by apply elem_of_nil in Hkv. }
  destruct (if exclude_defaults o then _ else _) as [[]|e]; simpl in Hitem;
    [injection Hitem as <-; by apply elem_of_nil in Hkv| |done].
  destruct (gv (cls self) o v) as [w|e] eqn:Ew; simpl in Hitem; [|done].
  injection Hitem as <-. apply list_elem_of_singleton in Hkv as ->.
  by apply Hv.
Qed.

Lemma _get_value_no_model v :
  ∀ cls o w,
    to_dict o = true →
    enum_values_plain v = true →
    get_value cls o v = Ok w →
    plain_value true w = true.
Proof.
  induction v as [| | | |en m v IH|l IH|l IH|d IH|m IH]
    using Value_nested_ind; intros cls o w Hto Hp; simpl in *;
    try (by intros [= <-]).
  - destruct (use_enum_values _); by intros [= <-].
  - destruct (mapM _ l) as [ws|e] eqn:E; simpl; [|done]. intros [= <-].
    simpl. apply Forall_forallb. apply mapM_Ok in E.
    apply forallb_Forall in Hp. apply Forall_forall. intros y Hy.
    apply list_elem_of_lookup in Hy as [i Hi].
    destruct (Forall2_lookup_r _ _ _ _ _ E Hi) as (x & Hl & Hx).
    apply list_elem_of_lookup_2 in Hl.
    apply (proj1 (Forall_forall _ _) IH x Hl cls o y Hto); [|done].
    apply (proj1 (Forall_forall _ _) Hp x Hl).
  - destruct (mapM _ l) as [ws|e] eqn:E; simpl; [|done]. intros [= <-].
    simpl. apply Forall_forallb. apply mapM_Ok in E.
    apply forallb_Forall in Hp. apply Forall_forall. intros y Hy.
    apply list_elem_of_lookup in Hy as [i Hi].
    destruct (Forall2_lookup_r _ _ _ _ _ E Hi) as (x & Hl & Hx).
    apply list_elem_of_lookup_2 in Hl.
    apply (proj1 (Forall_forall _ _) IH x Hl cls o y Hto); [|done].
    apply (proj1 (Forall_forall _ _) Hp x Hl).
  - destruct (mapM _ d) as [ws|e] eqn:E; simpl; [|done]. intros [= <-].
    simpl. apply Forall_forallb. apply mapM_Ok in E.
    apply forallb_Forall in Hp. apply Forall_forall. intros [k y] Hy.
    apply list_elem_of_lookup in Hy as [i Hi].
    destruct (Forall2_lookup_r _ _ _ _ _ E Hi) as ([k' x] & Hl & Hx).
    apply list_elem_of_lookup_2 in Hl. simpl in Hx.
    destruct (get_value cls o x) as [y'|e] eqn:Ey; simpl in Hx; [|done].
    injection Hx as <- <-. simpl.
    apply (proj1 (Forall_forall _ _) IH (k', x) Hl cls o y' Hto); [|done].
    apply (proj1 (Forall_forall _ _) Hp (k', x) Hl).
  - rewrite Hto. unfold dict_with.
    destruct (iter_with _ _ _ m _) as [items|e] eqn:E; simpl; [|done].
    apply (iter_with_values _ (λ w, plain_value true w = true)) in E;
      [|done|].
    + assert (Forall (λ kv : string * Value, plain_value true kv.2 = true)
                (dict_of items)) as Hall.
      { apply Forall_forall. intros kv [Hin|Hin]%dict_update_elem.
        - by apply elem_of_nil in Hin.
        - apply (proj1 (Forall_forall _ _) E kv Hin). }
      destruct (dict_get ROOT_KEY (dict_of items)) as [root|] eqn:Er;
        intros [= <-].
      * apply dict_get_Some in Er.
        apply (proj1 (Forall_forall _ _) Hall _ Er).
      * simpl. by apply Forall_forallb.
    + apply forallb_Forall in Hp. apply Forall_forall. intros kv Hin w' Hw'.
      eapply (proj1 (Forall_forall _ _) IH kv Hin); [|
        apply (proj1 (Forall_forall _ _) Hp kv Hin)|exact Hw']. done.
Qed.

(** X21.  What [dict()] returns holds no model instance at any depth,
    whatever the options: nested instances have become dicts (or their
    [__root__] value).  The one way an instance could get through is as
    the value of an [Enum] member, which is handed out as it is. *)
Theorem dict_no_model self by_alias skip_defaults exclude_unset
    exclude_defaults exclude_none items :
  Forall (λ kv, enum_values_plain kv.2 = true) (__dict__ self) →
  project self by_alias skip_defaults exclude_unset exclude_defaults
          exclude_none = Ok items →
  Forall (λ kv, plain_value true kv.2 = true) items.
Proof.
  intros Hp. unfold dict, dict_with.
  destruct (iter_with _ _ _ self _) as [yielded|e] eqn:E; simpl; [|done].
  intros [= <-].
  apply (iter_with_values _ (λ w, plain_value true w = true)) in E; [|done|].
  - apply Forall_forall. intros kv [Hin|Hin]%dict_update_elem.
    + by apply elem_of_nil in Hin.
    + apply (proj1 (Forall_forall _ _) E kv Hin).
  - apply Forall_forall. intros kv Hin w Hw.
    eapply _get_value_no_model; [|apply (proj1 (Forall_forall _ _) Hp kv Hin)|
      exact Hw]. done.
Qed.
End projection_more.

(** ** The round trip through [construct] *)

Section roundtrip.
Import Model.
Context (classes : string → ModelClass) (ROOT_KEY : string)
        (ValueItems_is_true : Value → bool).

Local Abbreviation get_value := (_get_value classes ROOT_KEY ValueItems_is_true).
Local Abbreviation project := (dict classes ROOT_KEY ValueItems_is_true).
Local Abbreviation same := (equal classes ROOT_KEY ValueItems_is_true).

Implicit Types (self x m : Instance) (v w : Value).

Lemma Forall2_pointwise {A B : Type} (P : A → Prop) (Q R : A → B → Prop)
    (l : list A) (l' : list B) :
  Forall P l → Forall2 Q l l' →
  (∀ a b, P a → Q a b → R a b) → Forall2 R l l'.
Proof.
  intros HP HQ Himp. revert HP.
  induction HQ as [|a b l l' Hab _ IH]; intros HP; [constructor|].
  apply Forall_cons in HP as [Ha HP]. constructor; [by apply Himp|].
  by apply IH.
Qed.

Lemma Forall2_Forall_right {A B : Type} (P : A → Prop) (Q : A → B → Prop)
    (S : B → Prop) (l : list A) (l' : list B) :
  Forall P l → Forall2 Q l l' →
  (∀ a b, P a → Q a b → S b) → Forall S l'.
Proof.
  intros HP HQ Himp. revert HP.
  induction HQ as [|a b l l' Hab _ IH]; intros HP; [constructor|].
  apply Forall_cons in HP as [Ha HP]. constructor; [by eapply Himp|].
  by apply IH.
Qed.

Lemma Forall2_diagonal {A : Type} (R : A → A → Prop) (l : list A) :
  Forall (λ a, R a a) l → Forall2 R l l.
Proof. induction 1; by constructor. Qed.

(** Entries that correspond one to one, key by key. *)
Lemma dict_get_pointwise (R : Value → Value → Prop)
    (d d' : list (string * Value)) k :
  Forall2 (λ kv kw, kw.1 = kv.1 ∧ R kv.2 kw.2) d d' →
  match dict_get k d with
  | Some v => ∃ w, dict_get k d' = Some w ∧ R v w
  | None => dict_get k d' = None
  end.
Proof.
  induction 1 as [|[k0 v0] [k1 w1] d d' [Hk Hr] _ IH]; [done|].
  simpl in *. subst k1. case_decide; [by eexists|done].
Qed.

Lemma pointwise_keys (R : Value → Value → Prop)
    (d d' : list (string * Value)) :
  Forall2 (λ kv kw, kw.1 = kv.1 ∧ R kv.2 kw.2) d d' → d'.*1 = d.*1.
Proof.
  induction 1 as [|[k0 v0] [k1 w1] d d' [Hk Hr] _ IH]; [done|].
  rewrite !fmap_cons, IH. simpl in *. by subst.
Qed.

(** What the full projection yields: every entry, under its key, with the
    value [_get_value] makes of it. *)
Lemma iter_with_full gv self items :
  iter_with classes ValueItems_is_true gv self full_projection = Ok items →
  Forall2 (λ kv kw, kw.1 = kv.1
                    ∧ gv (cls self) full_projection kv.2 = Ok kw.2)
          (__dict__ self) items.
Proof.
  rewrite iter_with_to_dict by done.
  destruct (mapM _ (__dict__ self)) as [yielded|e] eqn:E; simpl; [|done].
  intros [= <-]. apply mapM_Ok in E.
  induction E as [|[k v] ys l yielded Hitem _ IH]; [constructor|].
  unfold iter_item in Hitem. simpl in Hitem.
  destruct (gv (cls self) full_projection v) as [w|e] eqn:Ew;
    simpl in Hitem; [|done].
  injection Hitem as <-. simpl. constructor; [|exact IH]. by split.
Qed.

Lemma mapM_entries (f : Value → Result Value) (d ws : list (string * Value)) :
  mapM (λ kv : string * Value, v_ ← f kv.2; Ok (kv.1, v_)) d = Ok ws →
  Forall2 (λ kv kw, kw.1 = kv.1 ∧ f kv.2 = Ok kw.2) d ws.
Proof.
  intros E. apply mapM_Ok in E.
  eapply Forall2_impl; [exact E|]. intros [k v] [k' w] H. simpl in H.
  destruct (f v) as [w'|e] eqn:Ef; simpl in H; [|done].
  injection H as <- <-. by split.
Qed.

(** Every value is equal to itself, and so is what the full projection
    makes of it; and a value is equal to what the projection makes of it
    when neither an [Enum] member was replaced by its value nor an
    instance by its root value. *)
Lemma projection_equal v :
  same v v
  ∧ ∀ cls w,
      get_value cls full_projection v = Ok w →
      same w w
      ∧ (keeps_equal ROOT_KEY
           (negb (use_enum_values (Config (classes cls)))) v = true →
         same v w).
Proof.
  induction v as [| | | |en mb p IH|l IH|l IH|d IH|m IH]
    using Value_nested_ind.
  - split; [constructor|]. intros cls w [= <-]. split; [constructor|].
    intros _. constructor.
  - split; [constructor|]. intros cls w [= <-]. split; [constructor|].
    intros _. constructor.
  - split; [constructor|]. intros cls w [= <-]. split; [constructor|].
    intros _. constructor.
  - split; [constructor|]. intros cls w [= <-]. split; [constructor|].
    intros _. constructor.
  - split; [constructor|]. intros cls w. simpl.
    destruct (use_enum_values (Config (classes cls))); intros [= <-].
    + split; [apply IH|]. done.
    + split; [constructor|]. intros _. constructor.
  - split.
    { apply equal_list, Forall2_diagonal.
      eapply Forall_impl; [exact IH|]. by intros a [Ha _]. }
    intros cls w. simpl.
    destruct (mapM _ l) as [ws|e] eqn:E; simpl; [|done]. intros [= <-].
    apply mapM_Ok in E. split.
    + apply equal_list, Forall2_diagonal.
      eapply Forall2_Forall_right; [exact IH|exact E|].
      intros a b [_ Ha] Hab. by apply (Ha cls b Hab).
    + intros Hk%forallb_Forall. apply equal_list.
      eapply Forall2_pointwise;
        [apply Forall_and; split; [exact IH|exact Hk]|exact E|].
      intros a b [[_ Ha] Hka] Hab. by apply (Ha cls b Hab).
  - split.
    { apply equal_tuple, Forall2_diagonal.
      eapply Forall_impl; [exact IH|]. by intros a [Ha _]. }
    intros cls w. simpl.
    destruct (mapM _ l) as [ws|e] eqn:E; simpl; [|done]. intros [= <-].
    apply mapM_Ok in E. split.
    + apply equal_tuple, Forall2_diagonal.
      eapply Forall2_Forall_right; [exact IH|exact E|].
      intros a b [_ Ha] Hab. by apply (Ha cls b Hab).
    + intros Hk%forallb_Forall. apply equal_tuple.
      eapply Forall2_pointwise;
        [apply Forall_and; split; [exact IH|exact Hk]|exact E|].
      intros a b [[_ Ha] Hka] Hab. by apply (Ha cls b Hab).
  - split.
    { apply equal_dict; [done|]. intros k v w Hv Hw.
      rewrite Hv in Hw. injection Hw as <-.
      apply dict_get_Some in Hv.
      apply (proj1 (Forall_forall _ _) IH (k, v) Hv). }
    intros cls w. simpl.
    destruct (mapM _ d) as [ws|e] eqn:E; simpl; [|done]. intros [= <-].
    apply mapM_entries in E. split.
    + apply equal_dict; [done|]. intros k v w Hv Hw.
      rewrite Hv in Hw. injection Hw as <-.
      apply dict_get_Some in Hv.
      assert (Forall (λ kw : string * Value, same kw.2 kw.2) ws) as Hws.
      { eapply Forall2_Forall_right; [exact IH|exact E|].
        intros kv kw [_ Ha] [_ Hab]. by apply (Ha cls _ Hab). }
      apply (proj1 (Forall_forall _ _) Hws (k, v) Hv).
    + intros Hk%forallb_Forall. apply equal_dict.
      * unfold dict_keys.
        by rewrite (pointwise_keys
                      (λ v w, get_value cls full_projection v = Ok w) _ _ E).
      * intros k v w Hv Hw.
        assert (Forall2 (λ kv kw : string * Value,
                           kw.1 = kv.1 ∧ same kv.2 kw.2) d ws) as Hsame.
        { eapply Forall2_pointwise;
            [apply Forall_and; split; [exact IH|exact Hk]|exact E|].
          intros kv kw [[_ Ha] Hka] [Hkey Hab]. split; [done|].
          by apply (Ha cls _ Hab). }
        pose proof (dict_get_pointwise same d ws k Hsame) as Hget.
        rewrite Hv in Hget. destruct Hget as (w' & Hw' & Hvw).
        rewrite Hw in Hw'. by injection Hw' as <-.
  - (* an instance, compared through its projection *)
    destruct (dict_total classes ROOT_KEY ValueItems_is_true m false None
                false false) as [d Hd].
    assert (dict_with classes ValueItems_is_true get_value m false None
              false false false = Ok d) as Hd' by exact Hd.
    unfold dict_with in Hd'.
    destruct (iter_with _ _ _ m _) as [items|e] eqn:Eitems; simpl in Hd';
      [|done].
    injection Hd' as <-.
    pose proof (iter_with_full _ _ _ Eitems) as Hitems.
    assert (Forall (λ kw : string * Value, same kw.2 kw.2) (dict_of items))
      as Hvalues.
    { apply Forall_forall. intros kw [Hin|Hin]%dict_update_elem;
        [by apply elem_of_nil in Hin|].
      assert (Forall (λ kw : string * Value, same kw.2 kw.2) items) as Hall.
      { eapply Forall2_Forall_right; [exact IH|exact Hitems|].
        intros kv kw' [_ Ha] [_ Hab]. by apply (Ha (cls m) _ Hab). }
      apply (proj1 (Forall_forall _ _) Hall kw Hin). }
    assert (same (VDict (dict_of items)) (VDict (dict_of items))) as Hrefl.
    { apply equal_dict; [done|]. intros k v w Hv Hw.
      rewrite Hv in Hw. injection Hw as <-. apply dict_get_Some in Hv.
      apply (proj1 (Forall_forall _ _) Hvalues (k, v) Hv). }
    split.
    { apply equal_instance. by eapply __eq__instance. }
    intros c w. cbn [_get_value to_dict full_projection].
    change (dict_with classes ValueItems_is_true get_value m
              (by_alias full_projection) None
              (exclude_unset full_projection)
              (exclude_defaults full_projection)
              (exclude_none full_projection))
      with (project m false None false false false).
    rewrite Hd. simpl.
    destruct (dict_get ROOT_KEY (dict_of items)) as [root|] eqn:Eroot;
      intros [= <-].
    + split.
      * apply dict_get_Some in Eroot.
        apply (proj1 (Forall_forall _ _) Hvalues _ Eroot).
      * intros Hk. exfalso. apply negb_true_iff in Hk.
        assert (ROOT_KEY ∈ (dict_of items).*1) as Hin.
        { apply dict_get_Some in Eroot. apply list_elem_of_fmap.
          by exists (ROOT_KEY, root). }
        apply dict_of_keys_subset in Hin.
        rewrite (pointwise_keys
                   (λ v w, get_value (cls m) full_projection v = Ok w)
                   _ _ Hitems) in Hin.
        assert (dict_in ROOT_KEY (__dict__ m) = true) as Hroot.
        { apply dict_in_keys. unfold dict_keys.
          by apply elem_of_list_to_set. }
        by rewrite Hroot in Hk.
    + split; [exact Hrefl|]. intros _.
      apply equal_instance. by eapply __eq__other.
Qed.

End roundtrip.

(** ** The schema cache *)

Section schema_more.
Import Model.
Context {Schema : Type}.
Implicit Types (cache : gmap (bool * string) Schema).

(** X23.  Once [schema] was called with a pair of arguments, every later
    call with that pair answers the schema of the first call and leaves the
    cache as it is, whatever [model_schema] would answer by then and
    whichever other pairs were asked for in between: a cached schema is
    never recomputed. *)
Theorem schema_cached (model_schema model_schema' : bool → string → Schema)
    cache by_alias ref_template (others : list (bool * string)) :
  let first := schema model_schema cache by_alias ref_template in
  let cache' :=
    foldl (λ c key, (schema model_schema' c key.1 key.2).2) first.2 others in
  schema model_schema' cache' by_alias ref_template = (first.1, cache').
Proof.
  intros first cache'.
  assert (first.2 !! (by_alias, ref_template) = Some first.1) as Hfirst.
  { unfold first, schema.
    destruct (cache !! (by_alias, ref_template)) eqn:E; simpl; [done|].
    by rewrite lookup_insert_eq. }
  assert (cache' !! (by_alias, ref_template) = Some first.1) as Hlater.
  { unfold cache'. clearbody first. clear cache'.
    generalize dependent (first.2). clear cache.
    induction others as [|[b t] others IH]; intros c Hc; [done|].
    cbn [foldl]. apply IH. unfold schema. simpl.
    destruct (c !! (b, t)) eqn:E; simpl; [done|].
    rewrite lookup_insert_ne; [done|]. intros Heq. by rewrite Heq, Hc in E. }
  unfold schema at 1. by rewrite Hlater.
Qed.
End schema_more.

(** ** [create_model] *)

Section create_model_more.
Import Model.
Context {Obj Cls Meta Class : Type}
        (truthy : Obj → bool)
        (is_valid_field : string → bool)
        (inherit_config : Obj → Obj)
        (BaseModel : Cls)
        (resolve_bases : list Cls → option (list Cls))
        (prepare_class :
           string → list Cls → list (string * Obj) →
           Meta * list (string * NamespaceValue Obj Cls) * list (string * Obj))
        (call_meta :
           Meta → string → list Cls →
           list (string * NamespaceValue Obj Cls) → list (string * Obj) →
           Result Class).

Local Abbreviation loop := (field_definitions_loop truthy is_valid_field).
Local Abbreviation arguments :=
  (create_model_arguments truthy is_valid_field inherit_config BaseModel
                          resolve_bases prepare_class).
Local Abbreviation create :=
  (create_model truthy is_valid_field inherit_config BaseModel
                resolve_bases prepare_class call_meta).

Implicit Types (fds : list (string * FieldDefinition Obj))
               (annotations fields : list (string * Obj)).

Lemma unpack_definition_spec (f_def : FieldDefinition Obj) :
  match unpack_definition f_def with
  | Raise e => (∃ msg, e = ConfigError msg)
               ∧ ∃ items, f_def = DTuple items ∧ length items ≠ 2
  | Ok (_, f_value) =>
      match f_def with
      | DTuple items => ∃ a, items = [a; f_value]
      | DValue value => f_value = value
      end
  end.
Proof.
  destruct f_def as [[|a [|v [|? ?]]]|value]; simpl; try by eauto.
  all: split; [by eexists|]; eexists; split; [done|]; simpl; lia.
Qed.

Lemma loop_raises fds annotations fields :
  match (loop fds annotations fields).2 with
  | Raise e => (∃ msg, e = ConfigError msg) ∧ bad_definition fds
  | Ok _ => ¬ bad_definition fds
  end.
Proof.
  revert annotations fields.
  induction fds as [|[f f_def] fds IH]; intros annotations fields.
  - simpl. intros (f & items & Hin & _). by apply elem_of_nil in Hin.
  - cbn [field_definitions_loop].
    pose proof (unpack_definition_spec f_def) as Hdef.
    destruct (unpack_definition f_def) as [[a v]|e].
    + match goal with
      | |- context [loop fds ?ann ?fs] =>
          specialize (IH ann fs); destruct (loop fds ann fs) as [w r]
      end.
      simpl in *. destruct r as [?|e].
      * intros (f' & items & [Heq|Hin]%elem_of_cons & Hlen).
        -- injection Heq as -> <-. destruct Hdef as [? ->]. by apply Hlen.
        -- apply IH. by exists f', items.
      * destruct IH as [Hmsg (f' & items & Hin & Hlen)]. split; [done|].
        exists f', items. split; [|done]. apply elem_of_cons. by right.
    + simpl. destruct Hdef as [Hmsg (items & -> & Hlen)]. split; [done|].
      exists f, items. split; [|done]. apply elem_of_cons. by left.
Qed.

Lemma loop_fields fds annotations fields w annotations' fields' :
  loop fds annotations fields = (w, Ok (annotations', fields')) →
  (NoDup fields.*1 → NoDup fields'.*1)
  ∧ (∀ f, f ∉ fds.*1 → dict_get f fields' = dict_get f fields)
  ∧ (NoDup fds.*1 → ∀ f f_def, (f, f_def) ∈ fds →
       ∃ a v, unpack_definition f_def = Ok (a, v)
              ∧ dict_get f fields' = Some v)
  ∧ (∀ f f_def, (f, f_def) ∈ fds → is_valid_field f = false →
       underscore_warning f ∈ w).
Proof.
  revert annotations fields w.
  induction fds as [|[f0 f_def0] fds IH]; intros annotations fields w.
  - simpl. intros [= <- <- <-]. split; [done|]. split; [done|].
    split; [intros _|]; intros ? ? Hin; by apply elem_of_nil in Hin.
  - cbn [field_definitions_loop].
    destruct (unpack_definition f_def0) as [[a0 v0]|e] eqn:Edef; [|done].
    match goal with
    | |- context [loop fds ?ann ?fs] =>
        specialize (IH ann fs); destruct (loop fds ann fs) as [w' r]
    end.
    intros [= <- ->].
    destruct (IH w' eq_refl) as (Hnodup & Hother & Hheld & Hwarned).
    split; [|split; [|split]].
    + intros Hd. by apply Hnodup, dict_set_distinct.
    + intros f Hf. rewrite fmap_cons, not_elem_of_cons in Hf.
      destruct Hf as [Hne Hf]. rewrite (Hother f Hf), dict_get_set.
      by rewrite decide_False.
    + intros Hd f f_def Hin. rewrite fmap_cons in Hd.
      apply NoDup_cons in Hd as [Hf0 Hd].
      apply elem_of_cons in Hin as [[= -> ->]|Hin].
      * exists a0, v0. split; [done|].
        rewrite (Hother f0 Hf0), dict_get_set. by rewrite decide_True.
      * by apply Hheld.
    + intros f f_def Hin Hinvalid. apply elem_of_app.
      apply elem_of_cons in Hin as [[= -> ->]|Hin].
      * left. rewrite Hinvalid. apply list_elem_of_singleton. done.
      * right. by eapply Hwarned.
Qed.

Lemma dict_get_objects (fields : list (string * Obj)) f :
  dict_get f (prod_map id (@NObject Obj Cls) <$> fields)
  = NObject <$> dict_get f fields.
Proof.
  induction fields as [|[k v] fields IH]; [done|].
  rewrite fmap_cons. cbn [prod_map fst snd id dict_get].
  by destruct (decide (f = k)).
Qed.

Lemma dict_get_update_absent {V : Type} (d items : list (string * V)) f :
  f ∉ items.*1 → dict_get f (dict_update d items) = dict_get f d.
Proof.
  intros Hf. rewrite dict_get_update.
  assert (dict_get f (reverse items) = None) as ->; [|done].
  apply dict_get_None. by rewrite fmap_reverse, elem_of_reverse.
Qed.

(** X25.  When [create_model] gets to make the class, every field
    definition is in the namespace the metaclass is called with, under its
    name and with its value, ahead of a validator of the same name; and
    so is a field whose name [is_valid_field] turns down, for which the
    warning that it is ignored was given.  (The names [Config] and
    [__orig_bases__] and the names [prepare_class] fills are written
    later.) *)
Theorem create_model_field_kept name config base module validators kwargs
    slots fds warnings meta bases namespace kwds f f_def :
  arguments name config base module validators kwargs slots fds
  = (warnings, Ok (meta, bases, namespace, kwds)) →
  NoDup fds.*1 →
  (f, f_def) ∈ fds →
  f ≠ "Config" → f ≠ "__orig_bases__" →
  (∀ n bs kw, f ∉ (prepare_class n bs kw).1.2.*1) →
  ∃ a v, unpack_definition f_def = Ok (a, v)
    ∧ dict_get f namespace = Some (NObject v)
    ∧ (is_valid_field f = false → underscore_warning f ∈ warnings).
Proof.
  intros Hargs Hd Hin Hconfig Horig Hprepared.
  unfold create_model_arguments in Hargs.
  destruct (match base, config with
            | Some _, Some _ => _ | Some (inl b), None => _
            | Some (inr bs), None => _ | None, _ => _
            end) as [bases0|e]; [|done].
  destruct (loop fds [] []) as [w r] eqn:Eloop.
  destruct r as [[annotations fields]|e]; [|done].
  destruct (loop_fields _ _ _ _ _ _ Eloop)
    as (Hnodup & _ & Hheld & Hwarned).
  destruct (Hheld Hd f f_def Hin) as (a & v & Hdef & Hv).
  exists a, v. split; [done|].
  pose proof (Hprepared name (from_option id bases0 (resolve_bases bases0))
                (from_option id [] kwargs)) as Hns.
  destruct (prepare_class _ _ _) as [[meta0 ns] kwds0]. simpl in Hns.
  injection Hargs as <- <- <- <- <-. split.
  - rewrite dict_get_update_absent.
    + assert (∀ d : list (string * NamespaceValue Obj Cls),
                dict_get f (match config with
                            | Some config =>
                                if truthy config
                                then dict_set "Config"
                                       (NObject (inherit_config config)) d
                                else d
                            | None => d
                            end) = dict_get f d) as ->.
      { intros d. destruct config as [c|]; [|done].
        destruct (truthy c); [|done].
        rewrite dict_get_set. by rewrite decide_False. }
      rewrite dict_get_update, dict_get_reverse, dict_get_objects, Hv; [done|].
      assert ((prod_map id (@NObject Obj Cls) <$> fields).*1 = fields.*1)
        as ->; [|apply Hnodup; constructor].
      clear. induction fields as [|[k x] fields IH]; [done|].
      rewrite !fmap_cons, IH. done.
    + destruct (resolve_bases bases0); [|done].
      rewrite dict_set_fst. intros [?|?]; done.
  - intros Hinvalid. apply elem_of_app. right. by eapply Hwarned.
Qed.
End create_model_more.

(** ** Parsing and validating objects *)

Section parsing_more.
Import Model.
Context (classes : string → ModelClass)
        (ROOT_KEY : string)
        (mapping_like : Field → bool)
        (validate_python :
           string → list (string * Value) →
           Result (list (string * Value) * gset string))
        (as_dict : Value → option (list (string * Value)))
        (class_name : Value → string)
        (issubclass : string → string → bool)
        (orm_mode : string → bool)
        (copy_on_model_validation : string → CopyOnValidation).

Local Abbreviation enforce := (_enforce_dict_if_root classes ROOT_KEY mapping_like).
Local Abbreviation init := (__init__ classes validate_python).
Local Abbreviation parse :=
  (parse_obj classes ROOT_KEY mapping_like validate_python as_dict class_name).
Local Abbreviation validate_as :=
  (BaseModel_validate classes ROOT_KEY mapping_like validate_python as_dict
                      issubclass orm_mode copy_on_model_validation).

Implicit Types (cls : string) (obj value : Value).

Lemma is_root_dict_wrapped obj :
  is_root_dict ROOT_KEY (VDict [(ROOT_KEY, obj)]) = true.
Proof.
  unfold is_root_dict, dict_keys. apply bool_decide_eq_true_2. simpl.
  set_solver.
Qed.

(** X26.  [_enforce_dict_if_root] fails, with [KeyError], exactly when it
    is given a dict with the single key [ROOT_KEY] for a class without a
    root field.  Otherwise it returns, and what it returns is always a dict
    with the single key [ROOT_KEY]: an object that is not one already is
    wrapped, whether or not the class has a root field; one that is is
    wrapped once more when the root field is mapping-like, and returned as
    it is when not. *)
Theorem _enforce_dict_if_root_spec cls obj :
  let fails :=
    is_root_dict ROOT_KEY obj = true
    ∧ dict_get ROOT_KEY (__fields__ (classes cls)) = None in
  (fails →
   _enforce_dict_if_root classes ROOT_KEY mapping_like cls obj
   = inl (KeyError ROOT_KEY))
  ∧ (¬ fails →
     ∃ obj',
       _enforce_dict_if_root classes ROOT_KEY mapping_like cls obj = inr obj'
       ∧ is_root_dict ROOT_KEY obj' = true
       ∧ (is_root_dict ROOT_KEY obj = false → obj' = VDict [(ROOT_KEY, obj)])
       ∧ (is_root_dict ROOT_KEY obj = true →
          ∀ field,
            dict_get ROOT_KEY (__fields__ (classes cls)) = Some field →
            obj' = if mapping_like field then VDict [(ROOT_KEY, obj)]
                   else obj)).
Proof.
  unfold _enforce_dict_if_root. split.
  - intros [-> ->]. done.
  - intros Hok.
    destruct (is_root_dict ROOT_KEY obj) eqn:E; simpl.
    + destruct (dict_get ROOT_KEY (__fields__ (classes cls))) as [field|];
        [|by exfalso; apply Hok].
      destruct (mapping_like field) eqn:Em; eexists; (split; [done|]);
        (split; [by (apply is_root_dict_wrapped || done)|]);
        (split; [done|]); intros _ ? [= <-]; by rewrite Em.
    + eexists. split; [done|]. split; [apply is_root_dict_wrapped|].
      split; [done|]. done.
Qed.

Lemma enforce_dict cls obj obj' :
  enforce cls obj = inr obj' →
  ∃ d, obj' = VDict d ∧ dict_keys d = {[ROOT_KEY]}.
Proof.
  unfold _enforce_dict_if_root.
  assert (∃ d, VDict [(ROOT_KEY, obj)] = VDict d ∧ dict_keys d = {[ROOT_KEY]})
    as Hwrapped.
  { eexists. split; [done|].
    pose proof (is_root_dict_wrapped obj) as Hw.
    by apply bool_decide_eq_true in Hw. }
  destruct (is_root_dict ROOT_KEY obj) eqn:E; simpl.
  - destruct (dict_get ROOT_KEY (__fields__ (classes cls))) as [field|];
      [|done].
    destruct (mapping_like field); intros [= <-]; [done|].
    destruct obj; try done. simpl in E.
    apply bool_decide_eq_true in E. by eexists.
  - by intros [= <-].
Qed.

(** X27.  [parse_obj] hands to the class a dict with the single key
    [ROOT_KEY], or fails with [KeyError] before that: its own conversion of
    the object to a dict, and the [ValidationError] it raises for what
    cannot be converted, are never reached.  An object that is not such a
    dict already, a dict of field values among them, goes to the class as
    the value of [ROOT_KEY]. *)
Theorem parse_obj_spec cls obj :
  (is_root_dict ROOT_KEY obj = false →
   parse cls obj = package (init cls [(ROOT_KEY, obj)]))
  ∧ (parse cls obj = inl (KeyError ROOT_KEY)
     ∨ ∃ d, dict_keys d = {[ROOT_KEY]}
            ∧ parse cls obj = package (init cls d)).
Proof.
  split.
  - intros Hroot. unfold parse_obj, _enforce_dict_if_root.
    by rewrite Hroot.
  - unfold parse_obj.
    destruct (enforce cls obj) as [e|obj'] eqn:E.
    + left. unfold _enforce_dict_if_root in E.
      destruct (negb _); [done|].
      destruct (dict_get ROOT_KEY (__fields__ (classes cls))) as [field|].
      * by destruct (mapping_like field).
      * by injection E as <-.
    + right. destruct (enforce_dict _ _ _ E) as (d & -> & Hd). by exists d.
Qed.

(** X28.  On a value that is not an instance of the class, [validate] does
    what [parse_obj] does, and gives no warning: [orm_mode] (whose branch
    would call the [from_orm] that is not there) and [DictError] never come
    into play. *)
Theorem validate_as_parse_obj cls value :
  match value with
  | VModel m => issubclass (Model.cls m) cls = false
  | _ => True
  end →
  BaseModel_validate classes ROOT_KEY mapping_like validate_python as_dict
                     issubclass orm_mode copy_on_model_validation cls value
  = ([], parse_obj classes ROOT_KEY mapping_like validate_python as_dict
                   class_name cls value).
Proof.
  intros Hinst. unfold BaseModel_validate, parse_obj.
  assert (∀ r : Raised + Value,
            (∀ obj', r = inr obj' → ∃ d, obj' = VDict d) →
            match r with
            | inl e => inl e
            | inr (VDict value) => package (init cls value)
            | inr value =>
                if orm_mode cls then inl (AttributeError "from_orm")
                else match as_dict value with
                     | Some value_as_dict => package (init cls value_as_dict)
                     | None => inl DictError
                     end
            end
            = match r with
              | inl e => inl e
              | inr (VDict obj) => package (init cls obj)
              | inr obj =>
                  match as_dict obj with
                  | Some obj => package (init cls obj)
                  | None =>
                      inl (Package
                             (ValidationError ROOT_KEY
                                (__name__ (classes cls)
                                 +:+ " expected dict not "
                                 +:+ class_name obj)))
                  end
              end) as Hsame.
  { intros [e|obj'] Hr; [done|].
    destruct (Hr obj' eq_refl) as [d ->]. done. }
  assert (∀ obj', enforce cls value = inr obj' → ∃ d, obj' = VDict d) as Hd.
  { intros obj' E. destruct (enforce_dict _ _ _ E) as (d & -> & _).
    by eexists. }
  destruct value; try (by rewrite (Hsame _ Hd)).
  rewrite Hinst. by rewrite (Hsame _ Hd).
Qed.

End parsing_more.

(** * The further properties on examples *)

Lemma inherit_replaces_witness :
  field_seq (inherit Examples.parent_registry (family_store, own_registry)) "x"
  = match _field_validators Examples.parent_registry !! "x" with
    | Some r => deref family_store r
    | None => field_seq (family_store, own_registry) "x"
    end
  ∧ take (length family_store)
         (inherit Examples.parent_registry (family_store, own_registry)).1
    = family_store
  ∧ _used_validators
      (inherit Examples.parent_registry (family_store, own_registry)).2
    = _used_validators own_registry.
Proof.
  apply (inherit_replaces family_store Examples.parent_registry own_registry
           "x"); unfold closed; by_computation.
Defined.

Lemma child_leaves_parent_witness :
  field_seq
    ((resolve_all ["x"; "y"]
        (extract_all Examples.child_registrations
           (inherit Examples.parent_registry
                    (Examples.parent_store, __init__)))).1,
     Examples.parent_registry) "x"
  = field_seq (Examples.parent_store, Examples.parent_registry) "x".
Proof.
  apply (child_leaves_parent Examples.parent_store Examples.parent_registry
           __init__ Examples.child_registrations ["x"; "y"] "x").
  - unfold closed. by_computation.
  - reflexivity.
Defined.

Lemma resolve_unknown_witness :
  let st := (shared_store, shared_registry) in
  deref (get_field_validators "y" st).2.1 (get_field_validators "y" st).1
  = _all_fields_validators st.2
  ∧ _field_validators (get_field_validators "y" st).2.2 = _field_validators st.2
  ∧ (∀ f, field_seq (get_field_validators "y" st).2 f = field_seq st f)
  ∧ (∀ k r, _field_validators st.2 !! k = Some r →
            r ≠ (get_field_validators "y" st).1).
Proof.
  apply (resolve_unknown "y" (shared_store, shared_registry)).
  - unfold closed. by_computation.
  - reflexivity.
Defined.

Lemma resolve_all_then_check_witness :
  check_for_unused (resolve_all ["x"] (shared_store, shared_registry)) = Ok ().
Proof.
  apply (resolve_all_then_check ["x"] (shared_store, shared_registry)).
  intros k [r Hr]. simpl in Hr.
  apply lookup_singleton_Some in Hr as [<- _]. by_computation.
Defined.

Lemma registered_unresolved_fails_witness :
  ∃ msg pre post,
    check_for_unused (extract_all Examples.child_registrations ([], __init__))
    = Raise (ConfigError msg)
    ∧ msg = pre +:+ __name__ (function (mk_validator "child_xy" 4 true))
                +:+ post.
Proof.
  apply (registered_unresolved_fails [] __init__ Examples.child_registrations
           {| __field_validator__ :=
                Some (["x"; "y"], mk_validator "child_xy" 4 true);
              __root_validator__ := None |}
           ["x"; "y"] (mk_validator "child_xy" 4 true) "x").
  - reflexivity.
  - constructor.
  - reflexivity.
  - by_computation.
  - reflexivity.
  - by_computation.
Defined.

Lemma unchecked_registrations_pass_witness :
  check_for_unused (extract_all loose_registrations ([], __init__)) = Ok ().
Proof.
  apply (unchecked_registrations_pass [] __init__ loose_registrations).
  - reflexivity.
  - intros value fields validator Hin Htag.
    apply list_elem_of_singleton in Hin as ->.
    injection Htag as _ <-. reflexivity.
Defined.

Section examples_more.
Import Model Examples.


(** It fails as well for an instance that holds an instance with a root
    value: the projection holds the root value 5, which the inner instance,
    compared through its own projection, is not equal to. *)
Lemma roundtrip_root_differs :
  ¬ roundtrip_as_stated classes ROOT_KEY is_true wrapper.
Proof.
  intros (data & Hdata & H).
  vm_compute in Hdata. injection Hdata as <-.
  specialize (H "inner").
  assert (dict_get "inner" (__dict__ wrapper) = Some (VModel rooted)) as Hc
    by reflexivity.
  rewrite Hc in H. destruct H as (w & Hw & Hequal).
  vm_compute in Hw. injection Hw as <-.
  inversion Hequal as [| | | | | | | | | |self other Heq|]; subst.
  inversion Heq as [|self other d Hother Hd Hdict]; subst.
  inversion Hdict.
Qed.








Lemma setattr_failure_atomic_witness :
  (__setattr__ classes DUNDER_ATTRIBUTES locked "id" (VInt 8)).2 = locked.
Proof.
  eapply (setattr_failure_atomic classes DUNDER_ATTRIBUTES locked "id"
            (VInt 8)).
  reflexivity.
Defined.






Lemma dict_no_model_witness :
  Forall (λ kv : string * Value, plain_value true kv.2 = true)
         [("lead", VDict [("name", VStr "A"); ("age", VInt 0)]);
          ("motto", VNone)].
Proof.
  apply (dict_no_model classes ROOT_KEY is_true team false None false false
           false).
  - by_computation.
  - reflexivity.
Defined.


Lemma create_model_field_kept_witness :
  ∃ a v, unpack_definition (DValue (VInt 1)) = Ok (a, v)
    ∧ dict_get "_hidden" made_namespace = Some (NObject v)
    ∧ (negb (starts_with_underscore "_hidden") = false →
       underscore_warning "_hidden" ∈ [underscore_warning "_hidden"]).
Proof.
  apply (create_model_field_kept (Meta := unit) (λ _, true)
           (λ f, negb (starts_with_underscore f)) id "BaseModel"
           (λ _, None) (λ _ _ kwds, (tt, [], kwds))
           "Made" None None "m" None None None definitions
           [underscore_warning "_hidden"] tt ["BaseModel"] made_namespace
           [] "_hidden" (DValue (VInt 1))).
  - reflexivity.
  - by_computation.
  - constructor.
  - by_computation.
  - by_computation.
  - intros n bs kw. apply not_elem_of_nil.
Defined.

Lemma validate_as_parse_obj_witness :
  BaseModel_validate classes ROOT_KEY (λ _, false) trusting (λ _, None)
                     same_class (λ _, false) (λ _, CString "none")
                     "Aliased" (VModel person)
  = ([], parse_obj classes ROOT_KEY (λ _, false) trusting (λ _, None)
                   (λ _, "Person") "Aliased" (VModel person)).
Proof.
  apply (validate_as_parse_obj classes ROOT_KEY (λ _, false) trusting
           (λ _, None) (λ _, "Person") same_class (λ _, false)
           (λ _, CString "none") "Aliased" (VModel person)).
  reflexivity.
Defined.

End examples_more.
